(** * latex2pdfa: the patch engine, the process runner and the pipeline

    A shallow embedding of [src/latex2pdfa/latex2pdfa.py] and
    [src/latex2pdfa/utils.py].  Python text is a list of characters, the
    file store is a finite map from absolute paths to the text of the
    regular files, and every method of the [Latex2pdfa] class is a
    computation in a small state and exception monad over the world the
    program runs in: the file store, the directories, the trace of what
    the run did, and a counter of the questions it asked of its
    environment (spawned tools, prompts).  What the program cannot decide
    by itself (what a spawned tool prints, what the user answers, what
    the XML parser makes of a report) is a parameter, [Env]. *)

From Stdlib Require Import Ascii String ZArith Lia.
From Stdlib Require Import Numbers.DecimalString.
From stdpp Require Import gmap strings list fin_maps.

Local Open Scope Z_scope.

(** ** Text *)

(** A Python [str] is a [list ascii]: the model keeps to texts whose
    characters are code points below 256.  Files hold the text Python
    reads from them, and the output of a child is the text
    [bytes.decode('utf-8')] makes of it (the bytes themselves, for ASCII
    output). *)

Definition txt (s : string) : list ascii := list_ascii_of_string s.

Definition nl : ascii := ascii_of_nat 10.
Definition dquote : ascii := ascii_of_nat 34.

(** [s.startswith(pat)] *)
Fixpoint starts_with (pat s : list ascii) : bool :=
  match pat, s with
  | [], _ => true
  | _ :: _, [] => false
  | a :: pat', b :: s' => if decide (a = b) then starts_with pat' s' else false
  end.

(** [pat in s] for two strings: some suffix of [s] starts with [pat]. *)
Fixpoint contains (pat s : list ascii) : bool :=
  starts_with pat s ||
  match s with
  | [] => false
  | _ :: s' => contains pat s'
  end.

(** [s.endswith(pat)] *)
Definition ends_with (pat s : list ascii) : bool :=
  starts_with (reverse pat) (reverse s).

(** [x in xs] for a list of strings or of integers. *)
Definition py_in {A} `{EqDecision A} (x : A) (xs : list A) : bool :=
  bool_decide (x ∈ xs).

(** [str(n)] and [format] of an integer. *)
Definition str_of_Z (n : Z) : list ascii :=
  txt (NilEmpty.string_of_int (Z.to_int n)).

(** [" ".join(parts)] *)
Fixpoint join_sp (parts : list (list ascii)) : list ascii :=
  match parts with
  | [] => []
  | [p] => p
  | p :: ps => p ++ txt " " ++ join_sp ps
  end.

(** [f.readlines()]: the text cut after each newline; the last line keeps
    no newline when the text does not end in one. *)
Fixpoint readlines_from (cur : list ascii) (s : list ascii) : list (list ascii) :=
  match s with
  | [] => match cur with [] => [] | _ => [reverse cur] end
  | c :: s' =>
      if decide (c = nl) then reverse (c :: cur) :: readlines_from [] s'
      else readlines_from (c :: cur) s'
  end.

Definition readlines (s : list ascii) : list (list ascii) := readlines_from [] s.

(** ** Regular expressions of the source *)

(** What [\s] matches in a [str] pattern, among the code points below
    256: the characters for which [str.isspace] holds. *)
Definition is_space (c : ascii) : bool :=
  let n := nat_of_ascii c in
  ((9 <=? n) && (n <=? 13) || (28 <=? n) && (n <=? 32)
   || (n =? 133) || (n =? 160))%nat.

(** The class [[\S\n ]] of [run_process]. *)
Definition fatal_class (c : ascii) : bool :=
  negb (is_space c) || bool_decide (c = nl) || bool_decide (c = ascii_of_nat 32).

Fixpoint take_while (p : ascii -> bool) (s : list ascii) : list ascii :=
  match s with
  | c :: s' => if p c then c :: take_while p s' else []
  | [] => []
  end.

Definition fatal_lit : list ascii := txt "Fatal error".

(** A match of [Fatal error[\S\n ]+] that starts at the head of [s]: the
    literal, then the longest non-empty run of class characters. *)
Definition fatal_match_here (s : list ascii) : option (list ascii) :=
  if starts_with fatal_lit s then
    match take_while fatal_class (drop (length fatal_lit) s) with
    | [] => None
    | r => Some (fatal_lit ++ r)
    end
  else None.

(** [re.search(r'Fatal error[\S\n ]+', s)]: the leftmost match, as
    [match.group()]. *)
Fixpoint re_search_fatal (s : list ascii) : option (list ascii) :=
  match fatal_match_here s with
  | Some m => Some m
  | None =>
      match s with
      | [] => None
      | _ :: s' => re_search_fatal s'
      end
  end.

(** The signature as a shape of the output: the words [Fatal error] with
    at least one character of the class behind them. *)
Definition has_fatal_signature (s : list ascii) : Prop :=
  exists pre c rest, s = pre ++ fatal_lit ++ c :: rest /\ fatal_class c = true.

(** The end of the last [pat] that lies in the first line of [s], as the
    greedy [.*] followed by [pat] finds it ([.] matches no newline). *)
Fixpoint last_in_line (pat s : list ascii) : option nat :=
  match s with
  | [] => None
  | c :: s' =>
      if decide (c = nl) then None
      else
        match last_in_line pat s' with
        | Some k => Some (S k)
        | None => if starts_with pat s then Some (length pat) else None
        end
  end.

Definition usepackage_lit : list ascii := txt "usepackage".
Definition pdfx_lit : list ascii := txt "{pdfx}".

(** The length of a match of [usepackage.*{pdfx}] at the head of [s]. *)
Definition pdfx_match_here (s : list ascii) : option nat :=
  if starts_with usepackage_lit s then
    match last_in_line pdfx_lit (drop (length usepackage_lit) s) with
    | Some k => Some (length usepackage_lit + k)%nat
    | None => None
    end
  else None.

(** [re.sub('usepackage.*{pdfx}', repl, s)] for a [repl] without
    backslash: every leftmost match, left to right, gives way to [repl].
    [skip] counts the characters of the current match still to drop. *)
Fixpoint re_sub_pdfx_from (skip : nat) (repl s : list ascii) : list ascii :=
  match s with
  | [] => []
  | c :: s' =>
      match skip with
      | S k => re_sub_pdfx_from k repl s'
      | O =>
          match pdfx_match_here s with
          | Some n => repl ++ re_sub_pdfx_from (pred n) repl s'
          | None => c :: re_sub_pdfx_from O repl s'
          end
      end
  end.

Definition re_sub_pdfx (repl s : list ascii) : list ascii :=
  re_sub_pdfx_from O repl s.

(** ** Paths

    [pathlib] on POSIX, for paths written without a trailing or a doubled
    slash. *)

(** Where the last slash of [p] stands, if any. *)
Fixpoint last_slash (p : list ascii) : option nat :=
  match p with
  | [] => None
  | c :: p' =>
      match last_slash p' with
      | Some k => Some (S k)
      | None => if decide (c = "/"%char) then Some O else None
      end
  end.

(** [Path(p).name] *)
Definition path_name (p : list ascii) : list ascii :=
  match last_slash p with
  | Some k => drop (S k) p
  | None => p
  end.

(** [Path(p).parent] *)
Definition path_parent (p : list ascii) : list ascii :=
  match last_slash p with
  | Some O => txt "/"
  | Some k => take k p
  | None => txt "."
  end.

(** Where the last dot of a name stands, if any. *)
Fixpoint last_dot (n : list ascii) : option nat :=
  match n with
  | [] => None
  | c :: n' =>
      match last_dot n' with
      | Some k => Some (S k)
      | None => if decide (c = "."%char) then Some O else None
      end
  end.

(** [Path(p).suffix]: from the last dot of the name on, unless that dot
    opens or closes the name. *)
Definition path_suffix (p : list ascii) : list ascii :=
  let n := path_name p in
  match last_dot n with
  | Some (S k) => if decide (S (S k) = length n) then [] else drop (S k) n
  | _ => []
  end.

(** [Path(p).stem] *)
Definition path_stem (p : list ascii) : list ascii :=
  let n := path_name p in
  match last_dot n with
  | Some (S k) => if decide (S (S k) = length n) then n else take (S k) n
  | _ => n
  end.

(** [Path(d) / n] *)
Definition path_join (d n : list ascii) : list ascii :=
  if starts_with (txt "/") n then n
  else if decide (n = txt ".") then d
  else if decide (d = txt ".") then n
  else if decide (d = txt "/") then d ++ n
  else d ++ txt "/" ++ n.

(** [Path(p).absolute()] in a process whose working directory is [cwd]. *)
Definition path_absolute (cwd p : list ascii) : list ascii :=
  if starts_with (txt "/") p then p else path_join cwd p.

(** ** The world of a run *)

(** What a spawned command did: its exit status and what it wrote. *)
Record Child := mkChild {
  exit_code : Z;
  out : list ascii;
  err : list ascii
}.

(** [subprocess.CompletedProcess]; a stream that was not captured is
    [None]. *)
Record CompletedProcess := mkCompleted {
  args : list ascii;
  returncode : Z;
  stdout : option (list ascii);
  stderr : option (list ascii)
}.

(** [utils.CalledProcessError] *)
Record CalledProcessError := mkCalled {
  e_returncode : Z;
  e_cmd : list ascii;
  e_output : option (list ascii);
  e_stderr : option (list ascii)
}.

Inductive oserror := FileNotFound | IsADirectory | PermissionDenied | FileExists.

(** The exceptions the modelled code raises. *)
Inductive exn :=
| ECalledProcess (e : CalledProcessError)
| ETypeError
| EAttributeError
| EAssertionError
| EParseError
| EIndexError
| EOSError (why : oserror) (path : list ascii).

(** The stages [run] announces with [console.status]. *)
Inductive stage :=
| StCheckTex | StCheckExe | StPatch | StCompile | StGs
| StMetadata | StLinearize | StClean | StVerify.

Inductive level := Info | Warning | Error.

(** The messages handed to the logger, by what they report. *)
Inductive logmsg :=
| MNoVerapdf
| MTexMissing | MTexOk
| MExeNoFile (name : list ascii) | MExeNotOnPath (name : list ascii)
| MRequirementsOk
| MXmpExists | MXmpAdded | MXmpOpen | MXmpEnter | MXmpCannotCopy
| MAlreadyPatched | MPatched
| MRunning (cmd : list ascii)
| MCompiled | MGenerated | MMetadataFixed | MLinearized
| MVerapdf (result : list ascii)
| MCleaned | MCleanFailed (e : exn)
| MNotes.

Inductive event :=
| EvSpawn (cmd : list ascii) (cwd : option (list ascii))
| EvStatusStart (s : stage)
| EvStatusStop (s : stage)
| EvLog (l : level) (m : logmsg)
| EvRule
| EvBanner
| EvAsk
| EvSleep
| EvInput
| EvOpenFile (path : list ascii).

(** The file store holds the regular files by absolute path, as the text
    Python reads from them, and the set of directories. *)
Record World := mkWorld {
  files : gmap (list ascii) (list ascii);
  dirs : gset (list ascii);
  trace : list event;
  clock : nat
}.

(** An element of a parsed XML document: tag, attributes, children. *)
#[warnings="-register-all"]
Inductive element :=
| Elem (tag : list ascii) (attrs : list (list ascii * list ascii)) (children : list element).

(** What the program cannot decide by itself. *)
Record Env := mkEnv {
  (** [os.getcwd()] *)
  getcwd : list ascii;
  (** the directory of the installed module, where [resources] and
      [binaries] live *)
  module_dir : list ascii;
  (** the [n]th question being the spawn of a command: what the child
      returns and the files it leaves *)
  tool : nat -> list ascii -> option (list ascii) ->
         gmap (list ascii) (list ascii) -> Child * gmap (list ascii) (list ascii);
  (** [shutil.which(cmd) is not None] *)
  which : list ascii -> bool;
  (** the [n]th question being a prompt: the user's answer *)
  answer : nat -> bool;
  (** the names [iterdir] yields for a directory, in its order *)
  listing : list ascii -> gmap (list ascii) (list ascii) -> list (list ascii);
  (** the operating system refuses to unlink this path *)
  unlink_denied : list ascii -> bool;
  (** [ET.fromstring]: the root of a well-formed document *)
  fromstring : list ascii -> option element
}.

(** ** The monad: state, exceptions and [sys.exit] *)

Inductive res (A : Type) :=
| Ok (a : A)
| Raise (e : exn)
| Exit (code : Z).
Arguments Ok {A} a.
Arguments Raise {A} e.
Arguments Exit {A} code.

Definition M (A : Type) : Type := World -> res A * World.

Definition ret {A} (a : A) : M A := fun w => (Ok a, w).

Definition bind {A B} (m : M A) (k : A -> M B) : M B :=
  fun w =>
    match m w with
    | (Ok a, w') => k a w'
    | (Raise e, w') => (Raise e, w')
    | (Exit c, w') => (Exit c, w')
    end.

Notation "x <- m ;; k" := (bind m (fun x => k))
  (at level 100, m at next level, right associativity).
Notation "m ;;; k" := (bind m (fun _ => k))
  (at level 100, right associativity).

Definition raise {A} (e : exn) : M A := fun w => (Raise e, w).
Definition sys_exit {A} (code : Z) : M A := fun w => (Exit code, w).

Definition emit (e : event) : M unit :=
  fun w => (Ok tt, mkWorld (files w) (dirs w) (trace w ++ [e]) (clock w)).

Definition log (l : level) (m : logmsg) : M unit := emit (EvLog l m).

(** [with console.status(..): body]: the status starts, the body runs, and
    the status stops however the body ends. *)
Definition with_status {A} (s : stage) (body : M A) : M A :=
  fun w =>
    match emit (EvStatusStart s) w with
    | (_, w1) =>
        match body w1 with
        | (r, w2) => (r, snd (emit (EvStatusStop s) w2))
        end
    end.

Definition when (b : bool) (m : M unit) : M unit := if b then m else ret tt.

(** *** The file store *)

Definition get_files : M (gmap (list ascii) (list ascii)) := fun w => (Ok (files w), w).

Definition put_files (fs : gmap (list ascii) (list ascii)) : M unit :=
  fun w => (Ok tt, mkWorld fs (dirs w) (trace w) (clock w)).

(** [p.is_file()] *)
Definition is_file (p : list ascii) : M bool :=
  fun w => (Ok (bool_decide (is_Some (files w !! p))), w).

(** [open(p).read()], [Path(p).read_text()] *)
Definition read_text (p : list ascii) : M (list ascii) :=
  fun w =>
    match files w !! p with
    | Some c => (Ok c, w)
    | None =>
        if bool_decide (p ∈ dirs w) then (Raise (EOSError IsADirectory p), w)
        else (Raise (EOSError FileNotFound p), w)
    end.

(** [open(p, 'w')] at a file path: the file is there and empty from then
    on. *)
Definition open_w (p : list ascii) : M unit :=
  fun w => (Ok tt, mkWorld (<[p := []]> (files w)) (dirs w) (trace w) (clock w)).

(** [file.write(s)] on a file opened for writing at [p]: [s] goes after
    what was written so far. *)
Definition write (p s : list ascii) : M unit :=
  fun w =>
    (Ok tt, mkWorld (<[p := default [] (files w !! p) ++ s]> (files w))
                    (dirs w) (trace w) (clock w)).

(** [Path(p).write_text(s)] *)
Definition write_text (p s : list ascii) : M unit := open_w p ;;; write p s.

(** [shutil.move(src, dst)] between two file paths: a rename, which
    replaces a file that is at [dst]. *)
Definition shutil_move (src dst : list ascii) : M unit :=
  fun w =>
    match files w !! src with
    | Some c =>
        (Ok tt, mkWorld (<[dst := c]> (delete src (files w))) (dirs w) (trace w) (clock w))
    | None => (Raise (EOSError FileNotFound src), w)
    end.

(** [shutil.copy(src, dst)] between two file paths. *)
Definition shutil_copy (src dst : list ascii) : M unit :=
  c <- read_text src ;; write_text dst c.

(** [os.remove(p)] *)
Definition os_remove (E : Env) (p : list ascii) : M unit :=
  fun w =>
    match files w !! p with
    | Some _ =>
        if unlink_denied E p then (Raise (EOSError PermissionDenied p), w)
        else (Ok tt, mkWorld (delete p (files w)) (dirs w) (trace w) (clock w))
    | None =>
        if bool_decide (p ∈ dirs w) then (Raise (EOSError IsADirectory p), w)
        else (Raise (EOSError FileNotFound p), w)
    end.

(** The proper prefixes of [p] that end before a slash, shortest first:
    the directories above [p]. *)
Fixpoint ancestors_from (pre p : list ascii) : list (list ascii) :=
  match p with
  | [] => []
  | c :: p' =>
      (if decide (c = "/"%char) then
         match pre with [] => [] | _ => [reverse pre] end
       else [])
      ++ ancestors_from (c :: pre) p'
  end.

(** [os.makedirs(p, exist_ok=True)]: [p] and the directories above it
    become directories; a regular file in the way is an error. *)
Definition os_makedirs (p : list ascii) : M unit :=
  fun w =>
    let wanted := ancestors_from [] p ++ [p] in
    match list_find (fun d => is_Some (files w !! d)) wanted with
    | Some (_, d) => (Raise (EOSError FileExists d), w)
    | None =>
        (Ok tt, mkWorld (files w) (list_to_set wanted ∪ dirs w) (trace w) (clock w))
    end.

(** *** Questions to the environment *)

(** [Popen(cmd, shell=True, cwd=cwd)] and [communicate]: the child runs to
    its end. *)
Definition popen (E : Env) (cmd : list ascii) (cwd : option (list ascii)) : M Child :=
  fun w =>
    let '(c, fs) := tool E (clock w) cmd cwd (files w) in
    (Ok c, mkWorld fs (dirs w) (trace w ++ [EvSpawn cmd cwd]) (S (clock w))).

(** [Confirm.ask()] *)
Definition confirm_ask (E : Env) : M bool :=
  fun w =>
    (Ok (answer E (clock w)),
     mkWorld (files w) (dirs w) (trace w ++ [EvAsk]) (S (clock w))).

(** [input()] *)
Definition py_input : M unit :=
  fun w =>
    (Ok tt, mkWorld (files w) (dirs w) (trace w ++ [EvInput]) (S (clock w))).

(** [for x in xs: body(x)] *)
Fixpoint for_each {A} (xs : list A) (body : A -> M unit) : M unit :=
  match xs with
  | [] => ret tt
  | x :: xs' => body x ;;; for_each xs' body
  end.

(** ** utils.py: the process runner *)

Module utils.

(** [run(cmd, shell=True, cwd=cwd, ...)], without [input] and [timeout],
    which no caller passes.  [capture_output] and [capture_error] say
    which streams are piped back. *)
Definition run (E : Env) (cmd : list ascii) (cwd : option (list ascii))
    (capture_output capture_error check : bool) : M CompletedProcess :=
  c <- popen E cmd cwd ;;
  let so := if capture_output then Some (out c) else None in
  let se := if capture_error then Some (err c) else None in
  if check && negb (exit_code c =? 0)
  then raise (ECalledProcess (mkCalled (exit_code c) cmd so se))
  else ret (mkCompleted cmd (exit_code c) so se).

(** What [run_process] returns: the decoded standard output, or the
    [CompletedProcess] itself. *)
Inductive proc_value :=
| PText (s : list ascii)
| PResult (r : CompletedProcess).

(** The truth value of an optional byte string: there and not empty. *)
Definition nonempty (o : option (list ascii)) : bool :=
  match o with
  | Some (_ :: _) => true
  | _ => false
  end.

Definition fatal_prefix : list ascii := txt "pdflatex compilation error: ".

(** [run_process(cmd, cwd, verbose, ignore_errors)] *)
Definition run_process (E : Env) (cmd : list ascii) (cwd : option (list ascii))
    (verbose ignore_errors : bool) : M proc_value :=
  if verbose then
    emit EvRule ;;;
    log Info (MRunning cmd) ;;;
    result <- run E cmd cwd false false (negb ignore_errors) ;;
    ret (PResult result)
  else
    result <- run E cmd cwd true true false ;;
    if nonempty (stdout result) then
      let text := default [] (stdout result) in
      match re_search_fatal text with
      | Some m =>
          raise (ECalledProcess
                   (mkCalled (returncode result) (args result) None
                             (Some (fatal_prefix ++ m))))
      | None => ret (PText text)
      end
    else if nonempty (stderr result) && negb ignore_errors then
      raise (ECalledProcess
               (mkCalled (returncode result) (args result) None (stderr result)))
    else ret (PResult result).

End utils.

Import utils.

(** ** latex2pdfa.py: the [Latex2pdfa] class *)

(** [__file__] of the module. *)
Definition file_name : list ascii := txt "latex2pdfa".

Definition comment_start : list ascii :=
  repeat "%"%char 30 ++ file_name ++ repeat "%"%char 30 ++ [nl].

Definition comment_end : list ascii :=
  repeat "%"%char (length comment_start) ++ [nl].

(** A value that is a [str] or a [pathlib.Path]: the code tells them
    apart with [isinstance], and [join] and [absolute] accept one only. *)
Inductive pyval :=
| VStr (s : list ascii)
| VPath (p : list ascii).

(** [str(v)] *)
Definition py_str (v : pyval) : list ascii :=
  match v with
  | VStr s => s
  | VPath p => p
  end.

(** The truth value of an optional [str] argument. *)
Definition given (o : option (list ascii)) : option (list ascii) :=
  match o with
  | Some (c :: s) => Some (c :: s)
  | _ => None
  end.

(** The arguments of [Latex2pdfa.__init__]. *)
Record Args := mkArgs {
  a_main_tex_file : list ascii;
  a_conformance_level : list ascii;
  a_conformance_level_version : Z;
  a_output_dir : option (list ascii);
  a_output_filename : option (list ascii);
  a_ignore_metadata : bool;
  a_verbose : bool;
  a_verify : bool;
  a_pdflatex_path : option (list ascii);
  a_pdflatex_extra_cmds : option (list ascii);
  a_bibtex_path : option (list ascii);
  a_gs_path : option (list ascii);
  a_exiftool_path : option (list ascii);
  a_qpdf_path : option (list ascii);
  a_verapdf_path : option pyval;
  a_clean : bool
}.

(** The attributes of a [Latex2pdfa] object.  [verapdf_cmd] is set only
    when verification was asked for. *)
Record Latex2pdfa := mkSelf {
  script_name : list ascii;
  resources : list ascii;
  binaries : list ascii;
  main_tex_file : list ascii;
  conformance_level : list ascii;
  conformance_level_version : Z;
  xmpdata_sample : list ascii;
  verbose : bool;
  ignore_metadata : bool;
  verify : bool;
  clean : bool;
  pdflatex_extra_cmds : option (list ascii);
  cmds_before_documentclass : list (list ascii);
  preambule_cmds : list (list ascii);
  output_dir : list ascii;
  output_filename : list ascii;
  compiled_pdf_filename : list ascii;
  pdflatex_cmd : pyval;
  bibtex_cmd : pyval;
  gs_cmd : pyval;
  exiftool_cmd : pyval;
  qpdf_cmd : pyval;
  verapdf_cmd : option pyval
}.

(** ["\\usepackage[a-{}{}]{{pdfx}}".format(version, level)] *)
Definition pdfx_directive (version : Z) (level : list ascii) : list ascii :=
  txt "\usepackage[a-" ++ str_of_Z version ++ level ++ txt "]{pdfx}".

(** [Latex2pdfa.__init__] *)
Definition init (E : Env) (a : Args) : M Latex2pdfa :=
  let abs := path_absolute (getcwd E) in
  let res_dir := abs (path_join (module_dir E) (txt "resources")) in
  let bin_dir := abs (path_join (module_dir E) (txt "binaries")) in
  let main := a_main_tex_file a in
  let level := a_conformance_level a in
  let version := a_conformance_level_version a in
  if negb (py_in level [txt "a"; txt "b"; txt "u"]) then raise EAssertionError
  else if negb (py_in version [1; 2; 3]) then raise EAssertionError
  else
    let odir := match given (a_output_dir a) with
                | Some d => d
                | None => path_parent main
                end in
    os_makedirs (abs odir) ;;;
    let ofile := match given (a_output_filename a) with
                 | Some f => f
                 | None => path_stem main ++ txt "-PDFA-" ++ str_of_Z version
                           ++ level ++ txt ".pdf"
                 end in
    let self := fun vera =>
      mkSelf file_name res_dir bin_dir main level version
        (path_join res_dir (txt "sample.xmpdata"))
        (a_verbose a) (a_ignore_metadata a) (a_verify a) (a_clean a)
        (a_pdflatex_extra_cmds a)
        [txt "\pdfobjcompresslevel=0"; txt "\pdfminorversion=7";
         txt "\pdfinclusioncopyfonts=1"]
        [pdfx_directive version level]
        odir ofile (path_stem main ++ txt ".pdf")
        (match given (a_pdflatex_path a) with
         | Some p => VPath p | None => VStr (txt "pdflatex") end)
        (match given (a_bibtex_path a) with
         | Some p => VPath p | None => VStr (txt "bibtex") end)
        (match given (a_gs_path a) with
         | Some p => VStr p
         | None => VPath (path_join (path_join bin_dir (txt "ghostscript"))
                                    (txt "gs-923-linux-x86_64")) end)
        (VStr (default (txt "exiftool") (given (a_exiftool_path a))))
        (VStr (default (txt "qpdf") (given (a_qpdf_path a))))
        vera in
    if a_verify a then
      match a_verapdf_path a with
      | Some v => ret (self (Some v))
      | None => log Error MNoVerapdf ;;; sys_exit 1
      end
    else ret (self None).

(** The absolute path a file operation of the program reaches. *)
Definition resolve (E : Env) (p : list ascii) : list ascii :=
  path_absolute (getcwd E) p.

(** [check_tex_file] *)
Definition check_tex_file (E : Env) (self : Latex2pdfa) : M unit :=
  b <- is_file (resolve E (main_tex_file self)) ;;
  if negb b then log Error MTexMissing ;;; sys_exit 1
  else log Info MTexOk.

(** [check_executable(executable, name)] *)
Definition check_executable (E : Env) (executable : pyval) (name : list ascii) : M unit :=
  match executable with
  | VPath p =>
      b <- is_file (resolve E p) ;;
      if negb b then log Error (MExeNoFile name) ;;; sys_exit 1 else ret tt
  | VStr s =>
      if negb (which E s) then log Error (MExeNotOnPath name) ;;; sys_exit 1
      else ret tt
  end.

(** Reading the attribute [self.verapdf_cmd], which may not be set. *)
Definition get_verapdf_cmd (self : Latex2pdfa) : M pyval :=
  match verapdf_cmd self with
  | Some v => ret v
  | None => raise EAttributeError
  end.

(** [check_executables] *)
Definition check_executables (E : Env) (self : Latex2pdfa) : M unit :=
  check_executable E (pdflatex_cmd self) (txt "pdflatex") ;;;
  check_executable E (bibtex_cmd self) (txt "bibtex") ;;;
  check_executable E (gs_cmd self) (txt "ghostscript") ;;;
  check_executable E (exiftool_cmd self) (txt "exiftool") ;;;
  check_executable E (qpdf_cmd self) (txt "qpdf") ;;;
  (if verify self then
     v <- get_verapdf_cmd self ;; check_executable E v (txt "veraPDF")
   else ret tt) ;;;
  log Info MRequirementsOk.

Definition set_output_filename (self : Latex2pdfa) (f : list ascii) : Latex2pdfa :=
  mkSelf (script_name self) (resources self) (binaries self) (main_tex_file self)
    (conformance_level self) (conformance_level_version self) (xmpdata_sample self)
    (verbose self) (ignore_metadata self) (verify self) (clean self)
    (pdflatex_extra_cmds self) (cmds_before_documentclass self) (preambule_cmds self)
    (output_dir self) f (compiled_pdf_filename self)
    (pdflatex_cmd self) (bibtex_cmd self) (gs_cmd self) (exiftool_cmd self)
    (qpdf_cmd self) (verapdf_cmd self).

(** [setup]; the object it returns carries the output file name the
    method may have completed. *)
Definition setup (E : Env) (self : Latex2pdfa) : M Latex2pdfa :=
  emit EvRule ;;;
  with_status StCheckTex (check_tex_file E self) ;;;
  with_status StCheckExe (check_executables E self) ;;;
  let self' :=
    if negb (ends_with (txt ".pdf") (output_filename self))
    then set_output_filename self (output_filename self ++ txt ".pdf")
    else self in
  emit EvRule ;;;
  ret self'.

Definition is_oserror (e : exn) : bool :=
  match e with
  | EOSError _ _ => true
  | _ => false
  end.

(** [try: body except C as e: handler(e)] for the exceptions [catches]
    accepts. *)
Definition try_catch {A} (catches : exn -> bool) (body : M A) (handler : exn -> M A) : M A :=
  fun w =>
    match body w with
    | (Raise e, w') => if catches e then handler e w' else (Raise e, w')
    | r => r
    end.

(** [add_metadata] *)
Definition add_metadata (E : Env) (self : Latex2pdfa) : M unit :=
  let xmpdata_filename := path_stem (main_tex_file self) ++ txt ".xmpdata" in
  let xmpdata_file := path_join (path_parent (main_tex_file self)) xmpdata_filename in
  there <- is_file (resolve E xmpdata_file) ;;
  modify_xmpdata <- (if there then log Warning MXmpExists ;;; confirm_ask E
                     else ret false) ;;
  if there && negb modify_xmpdata then ret tt
  else
    try_catch is_oserror
      (when (negb modify_xmpdata)
         (shutil_copy (xmpdata_sample self) (resolve E xmpdata_file) ;;;
          log Info MXmpAdded) ;;;
       log Info MXmpOpen ;;;
       confirm_open <- confirm_ask E ;;
       log Info MXmpEnter ;;;
       emit EvSleep ;;;
       when confirm_open (emit (EvOpenFile (resolve E xmpdata_file))) ;;;
       py_input)
      (fun _ => log Warning MXmpCannotCopy ;;; sys_exit 0).

Definition documentclass_lit : list ascii := txt "documentclass".

(** The marker block that follows a line with the declaration keyword. *)
Definition write_after_block (p : list ascii) (self : Latex2pdfa) : M unit :=
  write p comment_start ;;;
  for_each (preambule_cmds self) (fun cmd => write p (cmd ++ [nl])) ;;;
  write p comment_end.

(** [patch_latex] *)
Definition patch_latex (E : Env) (self : Latex2pdfa) : M unit :=
  let p := resolve E (main_tex_file self) in
  let backup := p ++ txt ".backup" in
  content <- read_text p ;;
  if contains (script_name self) content then
    log Info MAlreadyPatched ;;;
    text <- read_text p ;;
    match preambule_cmds self with
    | [] => raise EIndexError
    | directive :: _ => write_text p (re_sub_pdfx (drop 1 directive) text)
    end
  else
    shutil_move p backup ;;;
    open_w p ;;;
    orig <- read_text backup ;;
    let lines := readlines orig in
    write p comment_start ;;;
    for_each (cmds_before_documentclass self) (fun cmd => write p (cmd ++ [nl])) ;;;
    write p comment_end ;;;
    for_each lines
      (fun line =>
         write p line ;;;
         when (contains documentclass_lit line) (write_after_block p self)) ;;;
    log Info MPatched.

(** [" ".join(parts)] over values: every part has to be a [str]. *)
Fixpoint strs_of (parts : list pyval) : option (list (list ascii)) :=
  match parts with
  | [] => Some []
  | VStr s :: ps => option_map (cons s) (strs_of ps)
  | VPath _ :: _ => None
  end.

Definition join_vals (parts : list pyval) : M (list ascii) :=
  match strs_of parts with
  | Some ss => ret (join_sp ss)
  | None => raise ETypeError
  end.

(** The compiler command line of [generate_pdf]. *)
Definition pdflatex_line (E : Env) (self : Latex2pdfa) : M (list ascii) :=
  join_vals [pdflatex_cmd self; VStr (txt "-no-shell-escape");
             VStr (txt "-interaction=nonstopmode");
             VStr (resolve E (main_tex_file self));
             VStr (default [] (pdflatex_extra_cmds self))].

(** The reference resolver's command line of [generate_pdf]. *)
Definition bibtex_line (self : Latex2pdfa) : M (list ascii) :=
  join_vals [bibtex_cmd self; VStr (path_stem (main_tex_file self))].

(** [generate_pdf] *)
Definition generate_pdf (E : Env) (self : Latex2pdfa) : M unit :=
  pdflatex <- pdflatex_line E self ;;
  bibtex <- bibtex_line self ;;
  let cwd := Some (resolve E (path_parent (main_tex_file self))) in
  run_process E pdflatex cwd (verbose self) false ;;;
  run_process E bibtex cwd (verbose self) false ;;;
  run_process E pdflatex cwd (verbose self) false ;;;
  run_process E pdflatex cwd (verbose self) false ;;;
  log Info MCompiled.

Definition compiled_pdf (self : Latex2pdfa) : list ascii :=
  path_join (path_parent (main_tex_file self)) (compiled_pdf_filename self).

Definition output_document (self : Latex2pdfa) : list ascii :=
  path_join (output_dir self) (output_filename self).

(** The converter's command line of [gs]. *)
Definition gs_line (E : Env) (self : Latex2pdfa) : list ascii :=
  join_sp [py_str (gs_cmd self);
           txt "-dPDFA=" ++ str_of_Z (conformance_level_version self);
           txt "-dBATCH"; txt "-dNOPAUSE";
           txt "-sProcessColorModel=DeviceRGB"; txt "-dOverprint=/disable";
           txt "-sColorConversionStrategy=RGB"; txt "-sDEVICE=pdfwrite";
           txt "-dPDFACompatibilityPolicy=1";
           txt "-sOutputFile=" ++ resolve E (output_document self);
           path_join (resolve E (resources self)) (txt "lib_PDFA_def.ps");
           resolve E (compiled_pdf self)].

(** [gs] *)
Definition gs (E : Env) (self : Latex2pdfa) : M unit :=
  run_process E (gs_line E self) (Some (txt ".")) (verbose self) false ;;;
  log Info MGenerated.

Definition quoted (s : list ascii) : list ascii := [dquote] ++ s ++ [dquote].

Definition exiftool_line (self : Latex2pdfa) : list ascii :=
  join_sp [py_str (exiftool_cmd self); txt "-TagsFromFile"; compiled_pdf self;
           quoted (txt "-all:all>all:all"); quoted (txt "-xmp-dc:all>xmp-dc:all");
           quoted (txt "-pdf:subject>pdf:subject"); txt "-overwrite_original";
           output_document self].

(** [fix_metadata] *)
Definition fix_metadata (E : Env) (self : Latex2pdfa) : M unit :=
  run_process E (exiftool_line self) (Some (txt ".")) (verbose self) false ;;;
  log Info MMetadataFixed.

Definition qpdf_line (self : Latex2pdfa) : list ascii :=
  join_sp [py_str (qpdf_cmd self); txt "--linearize";
           txt "--newline-before-endstream"; txt "--replace-input";
           output_document self].

(** [linearize_pdf] *)
Definition linearize_pdf (E : Env) (self : Latex2pdfa) : M unit :=
  run_process E (qpdf_line self) (Some (txt ".")) (verbose self) false ;;;
  log Info MLinearized.

(** *** The compliance report *)

(** [e.iter(tag)], first hit: [e] or a descendant, in document order. *)
Fixpoint iter_first (tag : list ascii) (e : element) : option element :=
  match e with
  | Elem t _ cs =>
      if decide (t = tag) then Some e
      else
        (fix among (l : list element) : option element :=
           match l with
           | [] => None
           | c :: l' =>
               match iter_first tag c with
               | Some r => Some r
               | None => among l'
               end
           end) cs
  end.

Fixpoint first_among (tag : list ascii) (l : list element) : option element :=
  match l with
  | [] => None
  | c :: l' =>
      match iter_first tag c with
      | Some r => Some r
      | None => first_among tag l'
      end
  end.

(** [e.find('.//tag')]: the first descendant of [e] with that tag, [e]
    itself left out. *)
Definition find_descendant (tag : list ascii) (e : element) : option element :=
  match e with
  | Elem _ _ cs => first_among tag cs
  end.

(** [e.get(key)] *)
Fixpoint get_attr (key : list ascii) (attrs : list (list ascii * list ascii))
  : option (list ascii) :=
  match attrs with
  | [] => None
  | (k, v) :: attrs' => if decide (k = key) then Some v else get_attr key attrs'
  end.

Definition elem_get (key : list ascii) (e : element) : option (list ascii) :=
  match e with
  | Elem _ attrs _ => get_attr key attrs
  end.

(** A value inside an f-string; [None] prints as its name. *)
Definition fmt (o : option (list ascii)) : list ascii :=
  default (txt "None") o.

Definition tab : ascii := ascii_of_nat 9.

(** The text [verify_compliance] logs. *)
Definition verdict_text (isCompliant statement profile_name failedChecks passed_checks
                         : option (list ascii)) : list ascii :=
  txt "[cian]veraPDF verification results:" ++ [nl]
  ++ txt "[yellow]Profile: " ++ fmt profile_name ++ txt "[/][/]"
  ++ [nl; tab] ++ txt "[green]Number of Passed checks: " ++ fmt passed_checks ++ txt "[/]"
  ++ [nl; tab] ++ txt "[red]Number of Failed checks: " ++ fmt failedChecks ++ txt "[/]"
  ++ (if decide (isCompliant = Some (txt "true")) then
        [nl] ++ txt "[green on white underline]:white_heavy_check_mark-text:"
        ++ fmt statement ++ txt " (" ++ fmt profile_name ++ txt ")[/]"
      else
        [nl] ++ txt "[red on white underline]:x-text:"
        ++ fmt statement ++ txt " (" ++ fmt profile_name ++ txt ")[/]").

(** The part of [verify_compliance] that reads the report [run_process]
    returned: from [ET.fromstring(report)] to the returned verdict. *)
Definition parse_report (E : Env) (report : proc_value) : M bool :=
  match report with
  | PResult _ => raise ETypeError
  | PText s =>
      match fromstring E s with
      | None => raise EParseError
      | Some root =>
          match find_descendant (txt "validationReport") root with
          | None => raise EAttributeError
          | Some summary =>
              let isCompliant := elem_get (txt "isCompliant") summary in
              let statement := elem_get (txt "statement") summary in
              let profile_name := elem_get (txt "profileName") summary in
              match find_descendant (txt "details") summary with
              | None => raise EAttributeError
              | Some details =>
                  let failedChecks := elem_get (txt "failedChecks") details in
                  let passed_checks := elem_get (txt "passedChecks") details in
                  log Info (MVerapdf (verdict_text isCompliant statement profile_name
                                        failedChecks passed_checks)) ;;;
                  ret (bool_decide (isCompliant = Some (txt "true")))
              end
          end
      end
  end.

(** [v.absolute()]: a method of [Path], which a [str] does not have. *)
Definition py_absolute (E : Env) (v : pyval) : M (list ascii) :=
  match v with
  | VPath p => ret (resolve E p)
  | VStr _ => raise EAttributeError
  end.

(** The validator's command line of [verify_compliance], for the
    validator at [vera] and the document [doc]. *)
Definition verapdf_line (E : Env) (self : Latex2pdfa) (vera doc : list ascii)
  : list ascii :=
  join_sp [vera; resolve E doc;
           txt "-f " ++ str_of_Z (conformance_level_version self)
           ++ conformance_level self].

(** [verify_compliance(document)] *)
Definition verify_compliance (E : Env) (self : Latex2pdfa)
    (document : option (list ascii)) : M bool :=
  let doc := match given document with
             | Some d => d
             | None => output_document self
             end in
  v <- get_verapdf_cmd self ;;
  vera <- py_absolute E v ;;
  report <- run_process E (verapdf_line E self vera doc) (Some (txt ".")) false false ;;
  parse_report E report.

(** *** The cleanup sweep *)

Definition aux_files_ext : list (list ascii) :=
  [txt ".aux"; txt ".bbl"; txt ".blg"; txt ".toc"; txt ".out"; txt ".log"].

(** The body of the loop of [clean_files], for the entry [name] of
    [directory]. *)
Definition remove_if_aux (E : Env) (directory name : list ascii) : M unit :=
  let file := path_join directory name in
  when (py_in (path_suffix file) aux_files_ext)
       (os_remove E (resolve E file)).

(** The loop and the last removal inside the [try] of [clean_files]. *)
Definition clean_body (E : Env) (self : Latex2pdfa) : M unit :=
  let directory := path_parent (main_tex_file self) in
  fs <- get_files ;;
  for_each (listing E (resolve E directory) fs) (remove_if_aux E directory) ;;;
  os_remove E (resolve E (path_join directory (compiled_pdf_filename self))) ;;;
  log Info MCleaned.

(** [clean_files] *)
Definition clean_files (E : Env) (self : Latex2pdfa) : M unit :=
  try_catch (fun _ => true) (clean_body E self)
    (fun e => log Error (MCleanFailed e)).

(** *** The pipeline *)

(** [run] *)
Definition run (E : Env) (self0 : Latex2pdfa) : M unit :=
  emit EvBanner ;;;
  self <- setup E self0 ;;
  when (negb (ignore_metadata self)) (add_metadata E self) ;;;
  with_status StPatch (patch_latex E self) ;;;
  with_status StCompile (generate_pdf E self) ;;;
  with_status StGs (gs E self) ;;;
  with_status StMetadata (fix_metadata E self) ;;;
  with_status StLinearize (linearize_pdf E self) ;;;
  when (clean self) (with_status StClean (clean_files E self)) ;;;
  when (verify self)
       (with_status StVerify (verify_compliance E self None ;;; ret tt)) ;;;
  emit EvRule ;;;
  log Info MNotes.

(** [main] after the command line is parsed: the object is built, then
    run. *)
Definition main (E : Env) (a : Args) : M unit :=
  self <- init E a ;;
  run E self.

(** ** Observations on a trace *)

(** The events the ordering of the stages is read from: the end of the
    patch stage, every spawned command, the start of the conversion
    stage. *)
Inductive mark :=
| PatchDone
| Spawned (cmd : list ascii)
| ConvertStart.

#[global]
Instance mark_eq_dec : EqDecision mark.
Proof. solve_decision. Defined.

Definition mark_of (e : event) : option mark :=
  match e with
  | EvSpawn cmd _ => Some (Spawned cmd)
  | EvStatusStop StPatch => Some PatchDone
  | EvStatusStart StGs => Some ConvertStart
  | _ => None
  end.

Definition marks (t : list event) : list mark := omap mark_of t.

(** The command lines of the compile stage, as [generate_pdf] joins them
    when every part is a [str]. *)
Definition compile_cmd (E : Env) (self : Latex2pdfa) : list ascii :=
  join_sp [py_str (pdflatex_cmd self); txt "-no-shell-escape";
           txt "-interaction=nonstopmode"; resolve E (main_tex_file self);
           default [] (pdflatex_extra_cmds self)].

Definition resolve_cmd (self : Latex2pdfa) : list ascii :=
  join_sp [py_str (bibtex_cmd self); path_stem (main_tex_file self)].

(** A level and a version the constructor accepts. *)
Definition valid_config (version : Z) (level : list ascii) : Prop :=
  py_in level [txt "a"; txt "b"; txt "u"] = true /\
  py_in version [1; 2; 3] = true.

(** The object [setup] hands on: the output file name ends in [.pdf]. *)
Definition setup_self (self : Latex2pdfa) : Latex2pdfa :=
  if negb (ends_with (txt ".pdf") (output_filename self))
  then set_output_filename self (output_filename self ++ txt ".pdf")
  else self.

(** The marks of the compile stage with the patch before it and the start
    of the conversion behind it. *)
Definition compile_marks (E : Env) (self : Latex2pdfa) : list mark :=
  [PatchDone;
   Spawned (compile_cmd E self); Spawned (resolve_cmd self);
   Spawned (compile_cmd E self); Spawned (compile_cmd E self);
   ConvertStart].

(** The marks of a run that goes through every stage. *)
Definition pipeline_marks (E : Env) (self : Latex2pdfa) : list mark :=
  compile_marks E self
  ++ [Spawned (gs_line E self); Spawned (exiftool_line self); Spawned (qpdf_line self)]
  ++ (if verify self then
        [Spawned (verapdf_line E self
                    (resolve E (from_option py_str [] (verapdf_cmd self)))
                    (output_document self))]
      else []).

(** The marks of the events [m] adds to the trace of [w] are an initial
    part of [s]; when [m] returns, they are all of [s], and the value
    satisfies [Q]. *)
Definition within {A} (s : list mark) (Q : A -> Prop) (m : M A) : Prop :=
  forall w, exists t,
    trace (snd (m w)) = trace w ++ t /\
    marks t `prefix_of` s /\
    forall a, fst (m w) = Ok a -> marks t = s /\ Q a.

(** [m] adds no mark. *)
Definition quiet {A} (m : M A) : Prop := within [] (fun _ => True) m.

(** The events [m] adds to the trace of [w]. *)
Definition events_of {A} (m : M A) (w : World) : list event :=
  drop (length (trace w)) (trace (snd (m w))).

(** How often [x] stands in [l]. *)
Definition count_of {A} `{EqDecision A} (x : A) (l : list A) : nat :=
  length (filter (fun y => y = x) l).

(** The characters of [x] before its first newline. *)
Fixpoint line_len (x : list ascii) : nat :=
  match x with
  | [] => O
  | c :: x' => if decide (c = nl) then O else S (line_len x')
  end.

(** A text that is empty or ends in a newline. *)
Definition whole_lines (x : list ascii) : Prop := x = [] \/ (last x = Some nl).

(** [w] with another file store. *)
Definition with_files (w : World) (fs : gmap (list ascii) (list ascii)) : World :=
  mkWorld fs (dirs w) (trace w) (clock w).

(** [w] after one more event. *)
Definition with_event (w : World) (e : event) : World :=
  mkWorld (files w) (dirs w) (trace w ++ [e]) (clock w).

(** [m] puts [s] at the end of the file [p], and does nothing else. *)
Definition appends (p s : list ascii) (m : M unit) : Prop :=
  forall w c, files w !! p = Some c ->
    m w = (Ok tt, with_files w (<[p := c ++ s]> (files w))).

(** What [patch_latex] writes before the document. *)
Definition before_block (self : Latex2pdfa) : list ascii :=
  comment_start
  ++ concat (map (fun cmd => cmd ++ [nl]) (cmds_before_documentclass self))
  ++ comment_end.

(** What [patch_latex] writes behind a line with the keyword. *)
Definition after_block (self : Latex2pdfa) : list ascii :=
  comment_start
  ++ concat (map (fun cmd => cmd ++ [nl]) (preambule_cmds self))
  ++ comment_end.

(** One line of the document as [patch_latex] writes it. *)
Definition patched_line (self : Latex2pdfa) (line : list ascii) : list ascii :=
  line ++ (if contains documentclass_lit line then after_block self else []).

(** The patch stage of a run of [main]: the object is built, then the
    document is patched. *)
Definition patch_of (E : Env) (a : Args) : M unit :=
  self <- init E a ;;
  patch_latex E self.

(** The text of the file at [p], empty when there is none. *)
Definition text_at (w : World) (p : list ascii) : list ascii :=
  default [] (files w !! p).

(** The child of the next spawn in [w], and the world it leaves. *)
Definition spawned (E : Env) (w : World) (cmd : list ascii) (cwd : option (list ascii))
  : Child :=
  fst (tool E (clock w) cmd cwd (files w)).

Definition after_spawn (E : Env) (w : World) (cmd : list ascii)
    (cwd : option (list ascii)) : World :=
  mkWorld (snd (tool E (clock w) cmd cwd (files w))) (dirs w)
          (trace w ++ [EvSpawn cmd cwd]) (S (clock w)).

(** ** utils.py: the text of an error *)

(** [CalledProcessError.__str__].  [show] is Python's [str] of the
    [stderr] attribute: the text itself for a [str], its [repr] for
    [bytes], [None] by name.  In the branch for a child that a signal
    ended, the code reads an attribute [returncod], which the object does
    not have; the [except ValueError] around it does not catch the
    [AttributeError]. *)
Definition CalledProcessError_str (show : option (list ascii) -> list ascii)
    (e : CalledProcessError) : res (list ascii) :=
  if negb (e_returncode e =? 0) && (e_returncode e <? 0) then Raise EAttributeError
  else
    Ok (txt "Command '" ++ e_cmd e ++ txt "' returned non-zero exit status "
        ++ str_of_Z (e_returncode e) ++ txt ".  " ++ [nl] ++ txt " "
        ++ match show (e_stderr e) with
           | [] => []
           | _ :: _ => show (e_stderr e)
           end).

(** ** What the checks of a run look at *)

(** What [check_executable] tests: a [Path] has to be a file, a [str] has
    to be found on the search path. *)
Definition exe_found (E : Env) (w : World) (v : pyval) : bool :=
  match v with
  | VPath p => bool_decide (is_Some (files w !! resolve E p))
  | VStr s => which E s
  end.

(** The executables [check_executables] goes through, in its order. *)
Definition checked_executables (self : Latex2pdfa) : list pyval :=
  [pdflatex_cmd self; bibtex_cmd self; gs_cmd self; exiftool_cmd self; qpdf_cmd self]
  ++ (if verify self then from_option (fun v => [v]) [] (verapdf_cmd self) else []).

(** The metadata file [add_metadata] looks for, beside the document. *)
Definition xmpdata_file (E : Env) (self : Latex2pdfa) : list ascii :=
  resolve E (path_join (path_parent (main_tex_file self))
                       (path_stem (main_tex_file self) ++ txt ".xmpdata")).

(** The compiled artifact [clean_files] removes last. *)
Definition compiled_document (E : Env) (self : Latex2pdfa) : list ascii :=
  resolve E (path_join (path_parent (main_tex_file self)) (compiled_pdf_filename self)).

(** The paths the loop of [clean_files] hands to [os.remove]: the entries
    of the listing whose suffix is one of the intermediate ones. *)
Definition swept_paths (E : Env) (self : Latex2pdfa) (w : World) : list (list ascii) :=
  let directory := path_parent (main_tex_file self) in
  map (fun name => resolve E (path_join directory name))
      (filter (fun name => py_in (path_suffix (path_join directory name)) aux_files_ext = true)
              (listing E (resolve E directory) (files w))).


(** From [w] to [w'] nothing happened to the file store but removals of
    paths of [allowed]: the directories are the same, and every path
    holds what it held or, if it is one of [allowed], nothing. *)
Definition only_deletes (allowed : list (list ascii)) (w w' : World) : Prop :=
  dirs w' = dirs w /\
  forall q, files w' !! q = files w !! q \/ (files w' !! q = None /\ q ∈ allowed).

(** [m] leaves the files and the directories as they are. *)
Definition keeps_store {A} (m : M A) : Prop :=
  forall w, files (snd (m w)) = files w /\ dirs (snd (m w)) = dirs w.

(** The message [check_executable] logs for an executable it misses. *)
Definition exe_missing (v : pyval) (name : list ascii) : logmsg :=
  match v with
  | VPath _ => MExeNoFile name
  | VStr _ => MExeNotOnPath name
  end.

(** ** Sample worlds *)

Module Sample.

(** An environment whose tools leave the files alone: the [n]th spawned
    command returns [children n], every executable is found, the user
    answers no, [names] is every directory's listing, the paths of
    [denied] cannot be unlinked, and every report parses to [root]. *)
Definition env (children : nat -> Child) (names denied : list (list ascii))
    (root : option element) : Env :=
  mkEnv (txt "/home/u/thesis") (txt "/opt/latex2pdfa")
    (fun n _ _ fs => (children n, fs))
    (fun _ => true)
    (fun _ => false)
    (fun _ _ => names)
    (fun p => bool_decide (p ∈ denied))
    (fun _ => root).

Definition silent : Child := mkChild 0 [] [].

Definition chatty : Child := mkChild 0 (txt "This is pdfTeX") [].

Definition tex : list ascii := txt "/home/u/thesis/thesis.tex".

(** A world with the given files, in which the working directory and the
    directories above it exist. *)
Definition world (fs : list (list ascii * list ascii)) : World :=
  mkWorld (list_to_map fs)
          (list_to_set [txt "/home"; txt "/home/u"; txt "/home/u/thesis"]) [] 0.

(** The command line [thesis.tex --ignore-metadata --no-clean --gs-path gs]. *)
Definition args : Args :=
  mkArgs (txt "thesis.tex") (txt "b") 1 None None true false false
         None None None (Some (txt "gs")) None None None false.

(** The same with [--verify] and [--output-dir out], and no validator
    path. *)
Definition args_verify : Args :=
  mkArgs (txt "thesis.tex") (txt "b") 1 (Some (txt "out")) None true false true
         None None None (Some (txt "gs")) None None None false.

(** A later run with [-cl u -clv 2]. *)
Definition args_2u : Args :=
  mkArgs (txt "thesis.tex") (txt "u") 2 None None true false false
         None None None (Some (txt "gs")) None None None false.

(** A document that loads a second package and names [{pdfx}] in a
    comment on that line. *)
Definition with_hyperref : list ascii :=
  txt "\documentclass{article}" ++ [nl]
  ++ txt "\usepackage{hyperref} % load before {pdfx}" ++ [nl]
  ++ txt "\begin{document}" ++ [nl].

Definition unpatched : list ascii :=
  txt "\documentclass{article}" ++ [nl]
  ++ txt "\begin{document}" ++ [nl]
  ++ txt "Hello" ++ [nl]
  ++ txt "\end{document}" ++ [nl].

End Sample.

(** * Properties *)

(** ** The definitions at work *)

Example readlines_ex :
  readlines (txt "a" ++ [nl] ++ txt "bc" ++ [nl] ++ txt "d")
  = [txt "a" ++ [nl]; txt "bc" ++ [nl]; txt "d"].
Proof. reflexivity. Qed.

Example re_search_fatal_ex :
  re_search_fatal (txt "! ==> Fatal error occurred, no output" ++ [ascii_of_nat 9] ++ txt "x")
  = Some (txt "Fatal error occurred, no output").
Proof. reflexivity. Qed.

Example re_search_fatal_bare : re_search_fatal (txt "Fatal error") = None.
Proof. reflexivity. Qed.

Example re_sub_pdfx_ex :
  re_sub_pdfx (txt "usepackage[a-2u]{pdfx}")
    (txt "\usepackage[a-1b]{pdfx}" ++ [nl] ++ txt "\usepackage{x}")
  = txt "\usepackage[a-2u]{pdfx}" ++ [nl] ++ txt "\usepackage{x}".
Proof. reflexivity. Qed.

Example path_ex :
  path_suffix (txt "a/b.tar.aux") = txt ".aux" /\
  path_suffix (txt ".aux") = [] /\
  path_stem (txt "/home/u/thesis.tex") = txt "thesis" /\
  path_parent (txt "thesis.tex") = txt "." /\
  path_absolute (txt "/home/u") (txt "thesis.tex") = txt "/home/u/thesis.tex".
Proof. repeat split. Qed.

Example comment_start_ex :
  length comment_start = 71%nat /\ length comment_end = 72%nat /\
  contains file_name comment_start = true.
Proof. repeat split. Qed.

Example pdfx_directive_ex : pdfx_directive 1 (txt "b") = txt "\usepackage[a-1b]{pdfx}".
Proof. reflexivity. Qed.

(** ** Text *)

Lemma starts_with_spec pat s :
  starts_with pat s = true <-> exists r, s = pat ++ r.
Proof.
  revert s. induction pat as [|a pat IH]; intros s; simpl.
  - split; [eauto | done].
  - destruct s as [|b s].
    + split; [done | intros [r Hr]; discriminate].
    + destruct (decide (a = b)) as [->|Hne].
      * rewrite IH. split; intros [r Hr]; exists r; [by rewrite Hr | by injection Hr].
      * split; [done | intros [r Hr]; injection Hr; congruence].
Qed.

Lemma starts_with_app pat r : starts_with pat (pat ++ r) = true.
Proof. apply starts_with_spec. eauto. Qed.

Lemma contains_spec pat s :
  contains pat s = true <-> exists pre post, s = pre ++ pat ++ post.
Proof.
  induction s as [|c s IH]; simpl.
  - rewrite orb_false_r, starts_with_spec. split.
    + intros [r Hr]. exists [], r. done.
    + intros (pre & post & H). destruct pre; [eauto | discriminate].
  - rewrite orb_true_iff, starts_with_spec, IH. split.
    + intros [[r Hr] | (pre & post & H)].
      * exists [], r. done.
      * exists (c :: pre), post. by rewrite H.
    + intros (pre & post & H). destruct pre as [|c' pre].
      * left. eauto.
      * right. injection H as _ H. eauto.
Qed.

Lemma contains_app_l pat s1 s2 :
  contains pat s1 = true -> contains pat (s1 ++ s2) = true.
Proof.
  rewrite !contains_spec. intros (pre & post & ->).
  exists pre, (post ++ s2). by rewrite <- !app_assoc.
Qed.

Lemma contains_app_r pat s1 s2 :
  contains pat s2 = true -> contains pat (s1 ++ s2) = true.
Proof.
  rewrite !contains_spec. intros (pre & post & ->).
  exists (s1 ++ pre), post. by rewrite <- !app_assoc.
Qed.

Lemma take_while_prefix p s : exists r, s = take_while p s ++ r.
Proof.
  induction s as [|c s [r IH]]; simpl; [by exists [] |].
  destruct (p c); [exists r; simpl; congruence | by exists (c :: s)].
Qed.

Lemma readlines_from_concat cur s :
  concat (readlines_from cur s) = reverse cur ++ s.
Proof.
  revert cur. induction s as [|c s IH]; intros cur; simpl.
  - destruct cur; simpl; [done | by rewrite !app_nil_r].
  - destruct (decide (c = nl)); simpl; rewrite IH.
    + rewrite reverse_cons, <- app_assoc. done.
    + rewrite reverse_cons, <- app_assoc. done.
Qed.

(** The lines [readlines] cuts a text into, put back together, are the
    text. *)
Lemma readlines_concat s : concat (readlines s) = s.
Proof. unfold readlines. by rewrite readlines_from_concat. Qed.

(** ** The fatal-error signature *)

Lemma fatal_match_here_Some s m :
  fatal_match_here s = Some m ->
  exists c r post, m = fatal_lit ++ c :: r /\ s = m ++ post /\ fatal_class c = true.
Proof.
  unfold fatal_match_here. destruct (starts_with fatal_lit s) eqn:Hs; [|done].
  apply starts_with_spec in Hs as [r0 ->].
  rewrite drop_app_length.
  destruct (take_while_prefix fatal_class r0) as [post Hpost].
  destruct (take_while fatal_class r0) as [|c r] eqn:Htw; [done |].
  intros [= <-]. exists c, r, post. split; [done |]. split.
  - rewrite Hpost at 1. reflexivity.
  - destruct r0 as [|c0 r0]; [done |]. simpl in Htw.
    destruct (fatal_class c0) eqn:Hc; [|done]. by injection Htw as <- _.
Qed.

Lemma fatal_match_here_app c rest :
  fatal_class c = true -> is_Some (fatal_match_here (fatal_lit ++ c :: rest)).
Proof.
  intros Hc. unfold fatal_match_here. rewrite starts_with_app, drop_app_length.
  simpl. rewrite Hc. eauto.
Qed.

Lemma re_search_fatal_eq s :
  re_search_fatal s =
  match fatal_match_here s with
  | Some m => Some m
  | None => match s with [] => None | _ :: s' => re_search_fatal s' end
  end.
Proof. by destruct s. Qed.

(** What [re.search] returns is a piece of the text that starts with the
    literal and goes on. *)
Lemma re_search_fatal_Some s m :
  re_search_fatal s = Some m ->
  exists pre c r post,
    s = pre ++ m ++ post /\ m = fatal_lit ++ c :: r /\ fatal_class c = true.
Proof.
  induction s as [|a s IH]; simpl.
  - done.
  - destruct (fatal_match_here (a :: s)) eqn:Hm.
    + intros [= ->].
      apply fatal_match_here_Some in Hm as (c & r & post & -> & H & Hc).
      exists [], c, r, post. done.
    + intros H. destruct (IH H) as (pre & c & r & post & -> & Hm' & Hc).
      exists (a :: pre), c, r, post. done.
Qed.

(** [re.search] finds the signature wherever it stands. *)
Lemma re_search_fatal_complete s :
  has_fatal_signature s -> is_Some (re_search_fatal s).
Proof.
  intros (pre & c & rest & -> & Hc).
  induction pre as [|a pre IH]; rewrite re_search_fatal_eq.
  - destruct (fatal_match_here_app c rest Hc) as [m Hm].
    rewrite app_nil_l, Hm. eauto.
  - rewrite <- app_comm_cons.
    destruct (fatal_match_here (a :: pre ++ fatal_lit ++ c :: rest)); eauto.
Qed.

Lemma re_search_fatal_None s :
  re_search_fatal s = None -> ~ has_fatal_signature s.
Proof.
  intros Hn Hs. apply re_search_fatal_complete in Hs as [m Hm]. congruence.
Qed.

(** ** The process runner *)

Lemma popen_eq E cmd cwd w :
  popen E cmd cwd w = (Ok (spawned E w cmd cwd), after_spawn E w cmd cwd).
Proof.
  unfold popen, spawned, after_spawn.
  by destruct (tool E (clock w) cmd cwd (files w)).
Qed.

Lemma nonempty_Some s : nonempty (Some s) = bool_decide (s <> []).
Proof. by destruct s. Qed.

(** The captured mode of [run_process], as a function of what the child
    wrote. *)
Lemma run_process_captured E cmd cwd ignore w :
  run_process E cmd cwd false ignore w =
  let c := spawned E w cmd cwd in
  (if bool_decide (out c <> []) then
     match re_search_fatal (out c) with
     | Some m =>
         Raise (ECalledProcess
                  (mkCalled (exit_code c) cmd None (Some (fatal_prefix ++ m))))
     | None => Ok (PText (out c))
     end
   else if bool_decide (err c <> []) && negb ignore then
     Raise (ECalledProcess (mkCalled (exit_code c) cmd None (Some (err c))))
   else Ok (PResult (mkCompleted cmd (exit_code c) (Some (out c)) (Some (err c)))),
   after_spawn E w cmd cwd).
Proof.
  unfold run_process, utils.run, bind. rewrite popen_eq. cbn [andb].
  unfold ret. cbn [stdout stderr returncode args].
  rewrite !nonempty_Some. cbn [default from_option]. unfold id.
  destruct (bool_decide (out (spawned E w cmd cwd) <> [])).
  - by destruct (re_search_fatal (out (spawned E w cmd cwd))).
  - by destruct (bool_decide (err (spawned E w cmd cwd) <> []) && negb ignore).
Qed.








(** ** The patch engine *)

Lemma appends_write p s : appends p s (write p s).
Proof. intros w c Hc. unfold write, with_files. by rewrite Hc. Qed.

Lemma appends_ret p : appends p [] (ret tt).
Proof.
  intros w c Hc. unfold ret, with_files. rewrite app_nil_r, insert_id by done.
  by destruct w.
Qed.

Lemma appends_bind p s1 s2 m k :
  appends p s1 m -> appends p s2 k -> appends p (s1 ++ s2) (m ;;; k).
Proof.
  intros Hm Hk w c Hc. unfold bind. rewrite (Hm w c Hc).
  rewrite (Hk _ (c ++ s1)) by (simpl; apply lookup_insert_eq).
  unfold with_files. simpl. by rewrite insert_insert_eq, app_assoc.
Qed.

Lemma appends_when p s (b : bool) m :
  appends p s m -> appends p (if b then s else []) (when b m).
Proof. destruct b; [done | intros _; apply appends_ret]. Qed.

Lemma appends_for_each {A} p (xs : list A) (f : A -> list ascii) body :
  (forall x, appends p (f x) (body x)) ->
  appends p (concat (map f xs)) (for_each xs body).
Proof.
  intros Hb. induction xs as [|x xs IH]; simpl.
  - apply appends_ret.
  - by apply appends_bind.
Qed.

Lemma appends_after_block p self :
  appends p (after_block self) (write_after_block p self).
Proof.
  unfold write_after_block, after_block.
  apply appends_bind; [apply appends_write |].
  apply appends_bind; [|apply appends_write].
  apply (appends_for_each p _ (fun cmd => cmd ++ [nl])).
  intros x. apply appends_write.
Qed.

Lemma seq_regroup {B} (a b c d : M unit) (e : M B) w :
  (a ;;; b ;;; c ;;; d ;;; e) w = ((a ;;; b ;;; c ;;; d) ;;; e) w.
Proof.
  unfold bind.
  destruct (a w) as [[[]|?|?] w1]; [|done..].
  destruct (b w1) as [[[]|?|?] w2]; [|done..].
  destruct (c w2) as [[[]|?|?] w3]; [|done..].
  by destruct (d w3) as [[[]|?|?] w4].
Qed.

Lemma backup_ne (p : list ascii) : p <> p ++ txt ".backup".
Proof.
  intros H. apply (f_equal length) in H. rewrite length_app in H.
  simpl in H. lia.
Qed.

(** The fresh patch: the document moves to the backup, and the new
    document is the first block followed by the patched lines. *)
Lemma patch_latex_fresh E self w orig :
  files w !! resolve E (main_tex_file self) = Some orig ->
  contains (script_name self) orig = false ->
  patch_latex E self w =
  (Ok tt,
   with_event
     (with_files w
        (<[resolve E (main_tex_file self) :=
             before_block self ++ concat (map (patched_line self) (readlines orig))]>
           (<[resolve E (main_tex_file self) ++ txt ".backup" := orig]>
              (delete (resolve E (main_tex_file self)) (files w)))))
     (EvLog Info MPatched)).
Proof.
  intros Hf Hm. unfold patch_latex.
  set (p := resolve E (main_tex_file self)) in *.
  unfold bind at 1. unfold read_text at 1. rewrite Hf, Hm.
  unfold bind at 1. unfold shutil_move. rewrite Hf.
  unfold bind at 1. unfold open_w. cbn [files dirs trace clock].
  unfold bind at 1. unfold read_text.
  cbn [files dirs trace clock].
  rewrite lookup_insert_ne by apply backup_ne.
  rewrite lookup_insert_eq.
  set (w1 := mkWorld _ _ _ _).
  assert (Hw1 : files w1 !! p = Some []) by apply lookup_insert_eq.
  assert (Happ : appends p (before_block self
                            ++ concat (map (patched_line self) (readlines orig)))
    (write p comment_start ;;;
     for_each (cmds_before_documentclass self) (fun cmd => write p (cmd ++ [nl])) ;;;
     write p comment_end ;;;
     for_each (readlines orig)
       (fun line => write p line ;;;
                    when (contains documentclass_lit line) (write_after_block p self)))).
  { unfold before_block. rewrite <- !app_assoc.
    apply appends_bind; [apply appends_write |].
    apply appends_bind.
    { apply (appends_for_each p _ (fun cmd => cmd ++ [nl])). intros x. apply appends_write. }
    apply appends_bind; [apply appends_write |].
    apply (appends_for_each p _ (patched_line self)). intros line.
    unfold patched_line. apply appends_bind; [apply appends_write |].
    apply appends_when, appends_after_block. }
  specialize (Happ w1 [] Hw1).
  rewrite seq_regroup. unfold bind at 1.
  rewrite Happ. unfold log, emit, with_event, with_files, w1.
  cbn [files dirs trace clock]. rewrite insert_insert_eq. reflexivity.
Qed.

(** The patch of a document that carries the marker: the directive is
    substituted in place, and no other file changes. *)
Lemma patch_latex_again E self w orig directive rest :
  files w !! resolve E (main_tex_file self) = Some orig ->
  contains (script_name self) orig = true ->
  preambule_cmds self = directive :: rest ->
  patch_latex E self w =
  (Ok tt,
   with_files (with_event w (EvLog Info MAlreadyPatched))
     (<[resolve E (main_tex_file self) := re_sub_pdfx (drop 1 directive) orig]>
        (files w))).
Proof.
  intros Hf Hm Hp. unfold patch_latex.
  unfold bind at 1. unfold read_text at 1. rewrite Hf, Hm.
  unfold bind at 1. unfold log, emit.
  unfold bind at 1. unfold read_text. cbn [files dirs trace clock]. rewrite Hf, Hp.
  unfold write_text, bind, open_w, write, with_files, with_event.
  cbn [files dirs trace clock].
  rewrite lookup_insert_eq, insert_insert_eq. reflexivity.
Qed.


(** C6. A patch of a document without the marker leaves, under the
    document's path with [.backup] appended, a file whose content is the
    original document; a patch of a document with the marker leaves what
    is under that path as it was, a file or none. *)
Theorem backup_invariant E self w orig :
  files w !! resolve E (main_tex_file self) = Some orig ->
  let backup := resolve E (main_tex_file self) ++ txt ".backup" in
  (contains (script_name self) orig = false ->
   fst (patch_latex E self w) = Ok tt /\
   files (snd (patch_latex E self w)) !! backup = Some orig)
  /\
  (contains (script_name self) orig = true ->
   files (snd (patch_latex E self w)) !! backup = files w !! backup).
Proof.
  intros Hf backup. split; intros Hm.
  - rewrite (patch_latex_fresh E self w orig Hf Hm). split; [done |].
    cbn [snd with_event with_files files].
    rewrite lookup_insert_ne by apply backup_ne.
    apply lookup_insert_eq.
  - destruct (preambule_cmds self) as [|directive rest] eqn:Hp.
    + unfold patch_latex, bind, read_text, log, emit. rewrite Hf, Hm.
      cbn [files dirs trace clock]. rewrite Hf, Hp. reflexivity.
    + rewrite (patch_latex_again E self w orig directive rest Hf Hm Hp).
      cbn [snd with_event with_files files].
      apply lookup_insert_ne, backup_ne.
Qed.




Lemma backup_invariant_witness :
  let E := Sample.env (fun _ => Sample.silent) [] [] None in
  let w := Sample.world [(Sample.tex, Sample.unpatched)] in
  exists self,
    init E Sample.args w = (Ok self, snd (init E Sample.args w)) /\
    fst (patch_latex E self (snd (init E Sample.args w))) = Ok tt /\
    files (snd (patch_latex E self (snd (init E Sample.args w))))
      !! (Sample.tex ++ txt ".backup") = Some Sample.unpatched.
Proof.
  cbv zeta. eexists. split; [vm_compute; reflexivity |].
  match goal with
  | |- fst (patch_latex ?E ?self ?w) = _ /\ _ =>
      apply (proj1 (backup_invariant E self w Sample.unpatched ltac:(reflexivity)))
  end.
  reflexivity.
Defined.

(** ** The constructor *)

Lemma init_rejects_level E a w :
  py_in (a_conformance_level a) [txt "a"; txt "b"; txt "u"] = false ->
  init E a w = (Raise EAssertionError, w).
Proof. intros H. unfold init. by rewrite H. Qed.

Lemma init_rejects_version E a w :
  py_in (a_conformance_level_version a) [1; 2; 3] = false ->
  init E a w = (Raise EAssertionError, w).
Proof.
  intros H. unfold init. rewrite H.
  by destruct (py_in (a_conformance_level a) [txt "a"; txt "b"; txt "u"]).
Qed.

(** C9, at the failing input: with [--verify], no validator path and an
    output directory that does not exist yet, [__init__] makes the
    directory and only then exits with status 1. *)
Theorem init_makes_directory_before_exit :
  let E := Sample.env (fun _ => Sample.silent) [] [] None in
  let w := Sample.world [(Sample.tex, Sample.unpatched)] in
  fst (init E Sample.args_verify w) = Exit 1 /\
  (txt "/home/u/thesis/out" ∉ dirs w) /\
  (txt "/home/u/thesis/out" ∈ dirs (snd (init E Sample.args_verify w))).
Proof.
  cbv zeta. split; [vm_compute; reflexivity |]. split.
  - apply (proj1 (bool_decide_eq_false _)). vm_compute. reflexivity.
  - apply (proj1 (bool_decide_eq_true _)). vm_compute. reflexivity.
Qed.

(** What the constructor does when verification is asked for without a
    validator path: the output directory is made first, then the program
    exits. *)
Lemma init_exits_after_makedirs E a w w1 :
  py_in (a_conformance_level a) [txt "a"; txt "b"; txt "u"] = true ->
  py_in (a_conformance_level_version a) [1; 2; 3] = true ->
  os_makedirs
    (path_absolute (getcwd E)
       (match given (a_output_dir a) with
        | Some d => d
        | None => path_parent (a_main_tex_file a)
        end)) w = (Ok tt, w1) ->
  a_verify a = true ->
  a_verapdf_path a = None ->
  init E a w = (Exit 1, with_event w1 (EvLog Error MNoVerapdf)).
Proof.
  intros Hl Hv Hd Hver Hpath. unfold init. rewrite Hl, Hv. cbn [negb].
  unfold bind at 1. rewrite Hd, Hver, Hpath. reflexivity.
Qed.

(** C1, at the failing input: a document whose second line loads another
    package and names [{pdfx}] in a comment is patched with level [b],
    version 1, then patched again with level [u], version 2.  The second
    patch rewrites the directive, and it also replaces the other line from
    [usepackage] to [{pdfx}]: the [hyperref] package and the comment are
    gone. *)
Theorem repatch_eats_other_package :
  let E := Sample.env (fun _ => Sample.silent) [] [] None in
  let w0 := Sample.world [(Sample.tex, Sample.with_hyperref)] in
  let w1 := snd (patch_of E Sample.args w0) in
  let w2 := snd (patch_of E Sample.args_2u w1) in
  exists self1 self2,
    fst (init E Sample.args w0) = Ok self1 /\
    fst (init E Sample.args_2u w1) = Ok self2 /\
    text_at w1 Sample.tex
    = before_block self1
      ++ txt "\documentclass{article}" ++ [nl] ++ after_block self1
      ++ txt "\usepackage{hyperref} % load before {pdfx}" ++ [nl]
      ++ txt "\begin{document}" ++ [nl] /\
    contains file_name (text_at w1 Sample.tex) = true /\
    fst (patch_of E Sample.args_2u w1) = Ok tt /\
    text_at w2 Sample.tex
    = before_block self2
      ++ txt "\documentclass{article}" ++ [nl] ++ after_block self2
      ++ txt "\usepackage[a-2u]{pdfx}" ++ [nl]
      ++ txt "\begin{document}" ++ [nl].
Proof.
  cbv zeta. do 2 eexists.
  split; [vm_compute; reflexivity |].
  split; [vm_compute; reflexivity |].
  repeat split; vm_compute; reflexivity.
Qed.

(** ** The compliance report *)

(** C8, as stated, fails: a report without a [validationReport] node makes
    [verify_compliance] raise [AttributeError], the error of a lookup on
    [None], and not the parser's [ParseError]. *)
Lemma missing_node_counterexample :
  let root := Elem (txt "report") [] [Elem (txt "buildInformation") [] []] in
  let E := Sample.env (fun _ => Sample.silent) [] [] (Some root) in
  find_descendant (txt "validationReport") root = None /\
  fst (parse_report E (PText (txt "<report><buildInformation/></report>"))
         (Sample.world [])) = Raise EAttributeError /\
  fst (parse_report E (PText (txt "<report><buildInformation/></report>"))
         (Sample.world [])) <> Raise EParseError.
Proof. cbv zeta. repeat split. discriminate. Qed.

(** C8, amended. Given a report in which a [validationReport] node and,
    below it, a [details] node are found, the parser returns the verdict:
    true exactly when the [isCompliant] attribute is the text [true]; the
    statement, the profile name and the counters of failed and passed
    checks are read from the two nodes and go into the logged text.  Given
    a report in which one of the two nodes is absent, it raises
    [AttributeError], which is not the verdict "not compliant". *)
Theorem report_verdict E s root w :
  fromstring E s = Some root ->
  (forall summary details,
     find_descendant (txt "validationReport") root = Some summary ->
     find_descendant (txt "details") summary = Some details ->
     parse_report E (PText s) w =
     (Ok (bool_decide (elem_get (txt "isCompliant") summary = Some (txt "true"))),
      with_event w
        (EvLog Info
           (MVerapdf
              (verdict_text (elem_get (txt "isCompliant") summary)
                 (elem_get (txt "statement") summary)
                 (elem_get (txt "profileName") summary)
                 (elem_get (txt "failedChecks") details)
                 (elem_get (txt "passedChecks") details))))))
  /\
  (find_descendant (txt "validationReport") root = None \/
   (exists summary,
      find_descendant (txt "validationReport") root = Some summary /\
      find_descendant (txt "details") summary = None) ->
   parse_report E (PText s) w = (Raise EAttributeError, w) /\
   fst (parse_report E (PText s) w) <> Ok false).
Proof.
  intros Hroot. unfold parse_report. rewrite Hroot. split.
  - intros summary details Hs Hd. rewrite Hs, Hd. reflexivity.
  - intros [Hs | (summary & Hs & Hd)].
    + rewrite Hs. split; [reflexivity | discriminate].
    + rewrite Hs, Hd. split; [reflexivity | discriminate].
Qed.

Lemma report_verdict_witness :
  let details := Elem (txt "details")
                   [(txt "passedChecks", txt "42"); (txt "failedChecks", txt "0")] [] in
  let summary := Elem (txt "validationReport")
                   [(txt "profileName", txt "PDF/A-1B"); (txt "statement", txt "compliant");
                    (txt "isCompliant", txt "true")] [details] in
  let root := Elem (txt "report") [] [Elem (txt "jobs") [] [Elem (txt "job") [] [summary]]] in
  let E := Sample.env (fun _ => Sample.silent) [] [] (Some root) in
  fst (parse_report E (PText (txt "<report/>")) (Sample.world [])) = Ok true.
Proof.
  cbv zeta.
  match goal with
  | |- fst (parse_report ?E ?r ?w) = _ =>
      rewrite (proj1 (report_verdict E (txt "<report/>") _ w ltac:(reflexivity))
                 _ _ ltac:(reflexivity) ltac:(reflexivity))
  end.
  reflexivity.
Defined.

(** ** The cleanup sweep *)

Lemma for_each_app {A} (l1 l2 : list A) body w :
  for_each (l1 ++ l2) body w = (for_each l1 body ;;; for_each l2 body) w.
Proof.
  revert w. induction l1 as [|x l1 IH]; intros w; [done |].
  cbn [app for_each]. unfold bind in *.
  destruct (body x w) as [[[]|?|?] w1]; [|done..].
  apply IH.
Qed.

(** A removal never asks the environment anything and leaves the trace as
    it is. *)
Lemma os_remove_Raise E p w e w' :
  os_remove E p w = (Raise e, w') -> w' = w.
Proof.
  unfold os_remove. destruct (files w !! p); [destruct (unlink_denied E p) |];
    [| |destruct (bool_decide (p ∈ dirs w))]; congruence.
Qed.

(** C7, as stated, fails: when the first intermediate file cannot be
    removed, the sweep ends there; the second intermediate file and the
    compiled artifact, which could be removed, stay. *)
Lemma sweep_aborts_counterexample :
  let E := Sample.env (fun _ => Sample.silent)
             [txt "thesis.tex"; txt "thesis.aux"; txt "thesis.log"]
             [txt "/home/u/thesis/thesis.aux"] None in
  let w := Sample.world
             [(Sample.tex, Sample.unpatched);
              (txt "/home/u/thesis/thesis.aux", txt "aux");
              (txt "/home/u/thesis/thesis.log", txt "log");
              (txt "/home/u/thesis/thesis.pdf", txt "pdf")] in
  let sweep := self <- init E Sample.args ;; clean_files E self in
  fst (sweep w) = Ok tt /\
  fst (os_remove E (txt "/home/u/thesis/thesis.log") w) = Ok tt /\
  fst (os_remove E (txt "/home/u/thesis/thesis.pdf") w) = Ok tt /\
  files (snd (sweep w)) !! txt "/home/u/thesis/thesis.log" = Some (txt "log") /\
  files (snd (sweep w)) !! txt "/home/u/thesis/thesis.pdf" = Some (txt "pdf").
Proof. cbv zeta. repeat split; vm_compute; reflexivity. Qed.

(** C7, amended. The sweep ends at the first removal that fails: the
    entries listed before it have been dealt with, the failing entry, the
    entries listed after it and the compiled artifact are left as they
    were, the failure is logged once, and [clean_files] returns normally,
    so the run goes on. *)
Theorem sweep_ends_at_first_failure E self w pre name post w1 e :
  let directory := path_parent (main_tex_file self) in
  listing E (resolve E directory) (files w) = pre ++ name :: post ->
  for_each pre (remove_if_aux E directory) w = (Ok tt, w1) ->
  py_in (path_suffix (path_join directory name)) aux_files_ext = true ->
  fst (os_remove E (resolve E (path_join directory name)) w1) = Raise e ->
  clean_files E self w = (Ok tt, with_event w1 (EvLog Error (MCleanFailed e))).
Proof.
  intros directory Hl Hpre Haux Hfail.
  destruct (os_remove E (resolve E (path_join directory name)) w1) as [r w1'] eqn:Hrm.
  simpl in Hfail. subst r. pose proof (os_remove_Raise _ _ _ _ _ Hrm) as ->.
  unfold clean_files, try_catch, clean_body. fold directory.
  unfold bind at 1. unfold get_files. rewrite Hl.
  unfold bind at 1. rewrite for_each_app.
  unfold bind at 1. rewrite Hpre.
  cbn [for_each]. unfold bind at 1.
  unfold remove_if_aux at 1. rewrite Haux. cbn [when]. rewrite Hrm.
  reflexivity.
Qed.

Lemma sweep_ends_at_first_failure_witness :
  let E := Sample.env (fun _ => Sample.silent)
             [txt "thesis.tex"; txt "thesis.aux"; txt "thesis.log"]
             [txt "/home/u/thesis/thesis.aux"] None in
  let w := Sample.world
             [(Sample.tex, Sample.unpatched);
              (txt "/home/u/thesis/thesis.aux", txt "aux");
              (txt "/home/u/thesis/thesis.log", txt "log");
              (txt "/home/u/thesis/thesis.pdf", txt "pdf")] in
  exists self,
    fst (init E Sample.args w) = Ok self /\
    clean_files E self w =
    (Ok tt,
     with_event w
       (EvLog Error
          (MCleanFailed (EOSError PermissionDenied (txt "/home/u/thesis/thesis.aux"))))).
Proof.
  cbv zeta. eexists. split; [vm_compute; reflexivity |].
  match goal with
  | |- clean_files ?E ?self ?w = _ =>
      apply (sweep_ends_at_first_failure E self w [txt "thesis.tex"]
               (txt "thesis.aux") [txt "thesis.log"] w)
  end; reflexivity.
Defined.

(** When every removal succeeds, the sweep reports success. *)
Lemma sweep_succeeds E self w w1 w2 :
  let directory := path_parent (main_tex_file self) in
  for_each (listing E (resolve E directory) (files w)) (remove_if_aux E directory) w
  = (Ok tt, w1) ->
  os_remove E (resolve E (path_join directory (compiled_pdf_filename self))) w1
  = (Ok tt, w2) ->
  clean_files E self w = (Ok tt, with_event w2 (EvLog Info MCleaned)).
Proof.
  intros directory Hloop Hpdf.
  unfold clean_files, try_catch, clean_body. fold directory.
  unfold bind at 1. unfold get_files.
  unfold bind at 1. rewrite Hloop.
  unfold bind at 1. rewrite Hpdf. reflexivity.
Qed.

(** ** The order of the stages *)

Lemma marks_app t1 t2 : marks (t1 ++ t2) = marks t1 ++ marks t2.
Proof. apply omap_app. Qed.

Lemma within_ret {A} (Q : A -> Prop) a : Q a -> within [] Q (ret a).
Proof.
  intros HQ w. exists []. simpl. rewrite app_nil_r.
  split; [done |]. split; [done |]. by intros ? [= <-].
Qed.

Lemma within_raise {A} s (Q : A -> Prop) e : within s Q (raise e).
Proof.
  intros w. exists []. simpl. rewrite app_nil_r.
  split; [done |]. split; [apply prefix_nil | done].
Qed.

Lemma within_exit {A} s (Q : A -> Prop) c : within s Q (sys_exit c).
Proof.
  intros w. exists []. simpl. rewrite app_nil_r.
  split; [done |]. split; [apply prefix_nil | done].
Qed.

(** A computation that leaves the trace alone is quiet. *)
Lemma quiet_silent {A} (m : M A) :
  (forall w, trace (snd (m w)) = trace w) -> quiet m.
Proof.
  intros H w. exists []. rewrite H, app_nil_r.
  split; [done |]. split; done.
Qed.

Lemma within_emit e :
  within (from_option (fun k => [k]) [] (mark_of e)) (fun _ => True) (emit e).
Proof.
  intros w. exists [e]. simpl. split; [done |].
  unfold marks. simpl. destruct (mark_of e); simpl; split; done.
Qed.

Lemma quiet_emit e : mark_of e = None -> quiet (emit e).
Proof. intros H. pose proof (within_emit e) as He. by rewrite H in He. Qed.

Lemma quiet_log l m : quiet (log l m).
Proof. by apply quiet_emit. Qed.

Lemma within_bind {A B} s1 s2 (Q : A -> Prop) (R : B -> Prop) (m : M A) (k : A -> M B) :
  within s1 Q m -> (forall a, Q a -> within s2 R (k a)) ->
  within (s1 ++ s2) R (bind m k).
Proof.
  intros Hm Hk w. destruct (Hm w) as (t1 & Ht1 & Hp1 & Hok1).
  unfold bind. destruct (m w) as [[a|e|c] w1]; simpl in *.
  - destruct (Hok1 a eq_refl) as [Hs1 HQ].
    destruct (Hk a HQ w1) as (t2 & Ht2 & Hp2 & Hok2).
    exists (t1 ++ t2). rewrite Ht2, Ht1, app_assoc, marks_app, Hs1.
    split; [done |]. split; [by apply prefix_app |].
    intros b Hb. destruct (Hok2 b Hb) as [-> HR]. done.
  - exists t1. split; [done |]. split; [by apply prefix_app_r | done].
  - exists t1. split; [done |]. split; [by apply prefix_app_r | done].
Qed.

Lemma quiet_bind {A B} (m : M A) (k : A -> M B) :
  quiet m -> (forall a, quiet (k a)) -> quiet (bind m k).
Proof. intros Hm Hk. apply (within_bind [] [] _ _ m k Hm). intros a _. apply Hk. Qed.

(** A quiet step in front changes nothing. *)
Lemma within_after_quiet {A B} s (R : B -> Prop) (m : M A) (k : A -> M B) :
  quiet m -> (forall a, within s R (k a)) -> within s R (bind m k).
Proof. intros Hm Hk. apply (within_bind [] s _ _ m k Hm). intros a _. apply Hk. Qed.

Lemma within_weaken {A} s (Q R : A -> Prop) (m : M A) :
  within s Q m -> (forall a, Q a -> R a) -> within s R m.
Proof.
  intros Hm HQR w. destruct (Hm w) as (t & Ht & Hp & Hok).
  exists t. split; [done |]. split; [done |].
  intros a Ha. destruct (Hok a Ha). split; auto.
Qed.

Lemma quiet_when (b : bool) m : quiet m -> quiet (when b m).
Proof. destruct b; [done | intros _; by apply within_ret]. Qed.

Lemma quiet_for_each {A} (xs : list A) body :
  (forall x, quiet (body x)) -> quiet (for_each xs body).
Proof.
  intros Hb. induction xs as [|x xs IH]; simpl.
  - by apply within_ret.
  - apply quiet_bind; [apply Hb | intros _; apply IH].
Qed.

Lemma quiet_try_catch {A} catches (body : M A) handler :
  quiet body -> (forall e, quiet (handler e)) -> quiet (try_catch catches body handler).
Proof.
  intros Hb Hh w. destruct (Hb w) as (t1 & Ht1 & Hp1 & Hok1).
  unfold try_catch. destruct (body w) as [[a|e|c] w1]; simpl in *.
  - exists t1. done.
  - destruct (catches e).
    + destruct (Hh e w1) as (t2 & Ht2 & Hp2 & Hok2).
      exists (t1 ++ t2). rewrite Ht2, Ht1, app_assoc, marks_app.
      apply prefix_nil_inv in Hp1, Hp2. rewrite Hp1, Hp2.
      split; [done |]. split; [done |]. intros a Ha. split; done.
    + exists t1. done.
  - exists t1. done.
Qed.

(** The status of a stage other than the patch and the conversion adds
    no mark. *)
Lemma within_status {A} st s (Q : A -> Prop) (m : M A) :
  mark_of (EvStatusStart st) = None -> mark_of (EvStatusStop st) = None ->
  within s Q m -> within s Q (with_status st m).
Proof.
  intros H1 H2 Hm w. unfold with_status.
  destruct (Hm (snd (emit (EvStatusStart st) w))) as (t & Ht & Hp & Hok).
  simpl in *. destruct (m _) as [r w2]; simpl in *.
  exists ([EvStatusStart st] ++ t ++ [EvStatusStop st]).
  rewrite Ht, <- !app_assoc. split; [done |].
  rewrite !marks_app. unfold marks at 1 3. simpl. rewrite H1, H2. simpl.
  rewrite app_nil_r. done.
Qed.

(** The patch stage, whose body is quiet, ends with its mark. *)
Lemma within_status_patch {A} (m : M A) :
  quiet m -> within [PatchDone] (fun _ => True) (with_status StPatch m).
Proof.
  intros Hm w. unfold with_status.
  destruct (Hm (snd (emit (EvStatusStart StPatch) w))) as (t & Ht & Hp & Hok).
  simpl in *. destruct (m _) as [r w2]; simpl in *.
  exists ([EvStatusStart StPatch] ++ t ++ [EvStatusStop StPatch]).
  rewrite Ht, <- !app_assoc. split; [done |].
  rewrite !marks_app. apply prefix_nil_inv in Hp. rewrite Hp. simpl.
  split; done.
Qed.

(** The conversion stage starts with its mark. *)
Lemma within_status_gs {A} s (Q : A -> Prop) (m : M A) :
  within s Q m -> within (ConvertStart :: s) Q (with_status StGs m).
Proof.
  intros Hm w. unfold with_status.
  destruct (Hm (snd (emit (EvStatusStart StGs) w))) as (t & Ht & Hp & Hok).
  simpl in *. destruct (m _) as [r w2]; simpl in *.
  exists ([EvStatusStart StGs] ++ t ++ [EvStatusStop StGs]).
  rewrite Ht, <- !app_assoc. split; [done |].
  rewrite !marks_app. unfold marks at 1 3. simpl. rewrite app_nil_r.
  split; [by apply prefix_cons |].
  intros a Ha. destruct (Hok a Ha) as [-> HQ]. done.
Qed.

Lemma within_popen E cmd cwd :
  within [Spawned cmd] (fun _ => True) (popen E cmd cwd).
Proof.
  intros w. rewrite popen_eq. exists [EvSpawn cmd cwd]. simpl. done.
Qed.

(** Every call of [run_process] spawns its command, once. *)
Lemma within_run_process E cmd cwd verbose ignore :
  within [Spawned cmd] (fun _ => True) (run_process E cmd cwd verbose ignore).
Proof.
  unfold run_process, utils.run. destruct verbose.
  - apply within_after_quiet; [by apply quiet_emit | intros _].
    apply within_after_quiet; [apply quiet_log | intros _].
    apply (within_bind [Spawned cmd] [] (fun _ => True)); [|intros r _; by apply within_ret].
    apply (within_bind [Spawned cmd] [] (fun _ => True)); [apply within_popen | intros c _].
    destruct (_ && _); [apply within_raise | by apply within_ret].
  - apply (within_bind [Spawned cmd] [] (fun _ => True)).
    + apply (within_bind [Spawned cmd] [] (fun _ => True)); [apply within_popen | intros c _].
      by apply within_ret.
    + intros r _. destruct (nonempty (stdout r)).
      * destruct (re_search_fatal _); [apply within_raise | by apply within_ret].
      * destruct (_ && _); [apply within_raise | by apply within_ret].
Qed.

(** The file operations and the prompts add no mark. *)
Lemma quiet_is_file p : quiet (is_file p).
Proof. by apply quiet_silent. Qed.

Lemma quiet_read_text p : quiet (read_text p).
Proof.
  apply quiet_silent. intros w. unfold read_text.
  destruct (files w !! p); [done |]. by destruct (bool_decide _).
Qed.

Lemma quiet_open_w p : quiet (open_w p).
Proof. by apply quiet_silent. Qed.

Lemma quiet_write p s : quiet (write p s).
Proof. by apply quiet_silent. Qed.

Lemma quiet_write_text p s : quiet (write_text p s).
Proof. apply quiet_bind; [apply quiet_open_w | intros _; apply quiet_write]. Qed.

Lemma quiet_shutil_move src dst : quiet (shutil_move src dst).
Proof.
  apply quiet_silent. intros w. unfold shutil_move. by destruct (files w !! src).
Qed.

Lemma quiet_shutil_copy src dst : quiet (shutil_copy src dst).
Proof. apply quiet_bind; [apply quiet_read_text | intros c; apply quiet_write_text]. Qed.

Lemma quiet_os_remove E p : quiet (os_remove E p).
Proof.
  apply quiet_silent. intros w. unfold os_remove.
  destruct (files w !! p); [by destruct (unlink_denied E p) | by destruct (bool_decide _)].
Qed.

Lemma quiet_get_files : quiet get_files.
Proof. by apply quiet_silent. Qed.

Lemma quiet_confirm_ask E : quiet (confirm_ask E).
Proof. intros w. exists [EvAsk]. simpl. split; [done |]. split; done. Qed.

Lemma quiet_py_input : quiet py_input.
Proof. intros w. exists [EvInput]. simpl. split; [done |]. split; done. Qed.

Lemma quiet_ret {A} (a : A) : quiet (ret a).
Proof. by apply within_ret. Qed.

Lemma within_ret_bind {A B} s (Q : B -> Prop) (a : A) (k : A -> M B) :
  within s Q (k a) -> within s Q (bind (ret a) k).
Proof. intros H w. exact (H w). Qed.

Lemma within_raise_bind {A B} s (Q : B -> Prop) e (k : A -> M B) :
  within s Q (bind (raise e) k).
Proof. intros w. exact (within_raise s Q e w). Qed.

(** Solves [quiet] goals by the shape of the computation. *)
Ltac quiet_step :=
  first
    [ apply quiet_ret | apply within_raise | apply within_exit
    | apply quiet_log | (apply quiet_emit; reflexivity)
    | apply quiet_is_file | apply quiet_read_text | apply quiet_open_w
    | apply quiet_write | apply quiet_write_text | apply quiet_shutil_move
    | apply quiet_shutil_copy | apply quiet_os_remove | apply quiet_get_files
    | apply quiet_confirm_ask | apply quiet_py_input
    | (apply quiet_when)
    | (apply quiet_for_each; intros ?)
    | (apply quiet_try_catch; [|intros ?])
    | (apply quiet_bind; [|intros ?])
    | (apply within_status; [reflexivity | reflexivity |]) ].

Ltac quiet_tac :=
  repeat
    first
      [ quiet_step
      | match goal with
        | |- quiet (if ?b then _ else _) => destruct b
        | |- quiet (match ?x with _ => _ end) => destruct x
        | |- within [] _ (if ?b then _ else _) => destruct b
        | |- within [] _ (match ?x with _ => _ end) => destruct x
        end ].

Lemma quiet_check_executable E v name : quiet (check_executable E v name).
Proof. unfold check_executable. quiet_tac. Qed.

(** [setup] adds no mark and hands on [setup_self]. *)
Lemma within_setup E self :
  within [] (fun s => s = setup_self self) (setup E self).
Proof.
  unfold setup.
  apply (within_bind [] [] (fun _ => True)); [by apply quiet_emit | intros _ _].
  apply (within_bind [] [] (fun _ => True)).
  { apply within_status; [done | done |]. unfold check_tex_file. quiet_tac. }
  intros _ _.
  apply (within_bind [] [] (fun _ => True)).
  { apply within_status; [done | done |].
    unfold check_executables, get_verapdf_cmd.
    pose proof (quiet_check_executable E) as Hc.
    repeat first [apply Hc | quiet_step
                 | match goal with
                   | |- quiet (if ?b then _ else _) => destruct b
                   | |- quiet (match ?x with _ => _ end) => destruct x
                   end]. }
  intros _ _.
  apply (within_bind [] [] (fun _ => True)); [by apply quiet_emit | intros _ _].
  by apply within_ret.
Qed.

Lemma quiet_add_metadata E self : quiet (add_metadata E self).
Proof. unfold add_metadata. quiet_tac. Qed.

Lemma quiet_patch_latex E self : quiet (patch_latex E self).
Proof. unfold patch_latex, write_after_block. quiet_tac. Qed.

Lemma quiet_clean_files E self : quiet (clean_files E self).
Proof. unfold clean_files, clean_body, remove_if_aux. quiet_tac. Qed.

Lemma quiet_parse_report E r : quiet (parse_report E r).
Proof. unfold parse_report. quiet_tac. Qed.

(** The compile stage: the compiler, the resolver, the compiler twice. *)
Lemma within_generate_pdf E self :
  within [Spawned (compile_cmd E self); Spawned (resolve_cmd self);
          Spawned (compile_cmd E self); Spawned (compile_cmd E self)]
         (fun _ => True) (generate_pdf E self).
Proof.
  unfold generate_pdf, pdflatex_line, bibtex_line, join_vals, compile_cmd, resolve_cmd.
  destruct (pdflatex_cmd self) as [pc|pc]; cbn [strs_of option_map py_str].
  2: { apply within_raise_bind. }
  destruct (bibtex_cmd self) as [bc|bc]; cbn [strs_of option_map py_str].
  2: { apply within_ret_bind, within_raise_bind. }
  set (c := join_sp _). set (b := join_sp _).
  do 2 apply within_ret_bind.
  apply (within_bind [Spawned c] [Spawned b; Spawned c; Spawned c] (fun _ => True));
    [apply within_run_process | intros _ _].
  apply (within_bind [Spawned b] [Spawned c; Spawned c] (fun _ => True));
    [apply within_run_process | intros _ _].
  apply (within_bind [Spawned c] [Spawned c] (fun _ => True));
    [apply within_run_process | intros _ _].
  apply (within_bind [Spawned c] [] (fun _ => True));
    [apply within_run_process | intros _ _].
  apply quiet_log.
Qed.

Lemma within_gs E self :
  within [Spawned (gs_line E self)] (fun _ => True) (gs E self).
Proof.
  unfold gs. apply (within_bind [Spawned (gs_line E self)] [] (fun _ => True));
    [apply within_run_process | intros _ _; apply quiet_log].
Qed.

Lemma within_fix_metadata E self :
  within [Spawned (exiftool_line self)] (fun _ => True) (fix_metadata E self).
Proof.
  unfold fix_metadata.
  apply (within_bind [Spawned (exiftool_line self)] [] (fun _ => True));
    [apply within_run_process | intros _ _; apply quiet_log].
Qed.

Lemma within_linearize_pdf E self :
  within [Spawned (qpdf_line self)] (fun _ => True) (linearize_pdf E self).
Proof.
  unfold linearize_pdf.
  apply (within_bind [Spawned (qpdf_line self)] [] (fun _ => True));
    [apply within_run_process | intros _ _; apply quiet_log].
Qed.

Lemma within_verify_compliance E self :
  within [Spawned (verapdf_line E self
                     (resolve E (from_option py_str [] (verapdf_cmd self)))
                     (output_document self))]
         (fun _ => True) (verify_compliance E self None).
Proof.
  unfold verify_compliance, get_verapdf_cmd, py_absolute. cbn [given].
  destruct (verapdf_cmd self) as [[v|v]|]; cbn [from_option py_str].
  - apply within_ret_bind, within_raise_bind.
  - do 2 apply within_ret_bind.
    apply (within_bind [Spawned _] [] (fun _ => True));
      [apply within_run_process | intros r _; apply quiet_parse_report].
  - apply within_raise_bind.
Qed.

Lemma compile_marks_setup E self :
  compile_marks E (setup_self self) = compile_marks E self.
Proof. unfold setup_self. by destruct (negb _). Qed.

(** The marks of a run are an initial part of the marks of the whole
    pipeline, and all of them when the run returns. *)
Lemma run_marks E self :
  within (pipeline_marks E (setup_self self)) (fun _ => True) (run E self).
Proof.
  unfold run.
  apply within_after_quiet; [by apply quiet_emit | intros _].
  apply (within_bind [] _ (fun s => s = setup_self self)); [apply within_setup |].
  intros ? ->. set (self' := setup_self self).
  apply within_after_quiet; [apply quiet_when, quiet_add_metadata | intros _].
  unfold pipeline_marks, compile_marks.
  apply (within_bind [PatchDone] _ (fun _ => True));
    [apply within_status_patch, quiet_patch_latex | intros _ _].
  apply (within_bind [Spawned (compile_cmd E self'); Spawned (resolve_cmd self');
                      Spawned (compile_cmd E self'); Spawned (compile_cmd E self')]
           _ (fun _ => True));
    [apply within_status; [done | done | apply within_generate_pdf] | intros _ _].
  apply (within_bind [ConvertStart; Spawned (gs_line E self')] _ (fun _ => True));
    [apply within_status_gs, within_gs | intros _ _].
  apply (within_bind [Spawned (exiftool_line self')] _ (fun _ => True));
    [apply within_status; [done | done | apply within_fix_metadata] | intros _ _].
  apply (within_bind [Spawned (qpdf_line self')] _ (fun _ => True));
    [apply within_status; [done | done | apply within_linearize_pdf] | intros _ _].
  apply within_after_quiet.
  { apply quiet_when, within_status; [done | done | apply quiet_clean_files]. }
  intros _. destruct (verify self'); cbn [when].
  - apply (within_bind [Spawned _] [] (fun _ => True)).
    + apply within_status; [done | done |].
      apply (within_bind [Spawned _] [] (fun _ => True));
        [apply within_verify_compliance | intros _ _; by apply within_ret].
    + intros _ _. apply quiet_bind; [by apply quiet_emit | intros _; apply quiet_log].
  - apply within_after_quiet; [apply quiet_ret | intros _].
    apply quiet_bind; [by apply quiet_emit | intros _; apply quiet_log].
Qed.

Lemma within_events {A} s (Q : A -> Prop) (m : M A) w :
  within s Q m ->
  trace (snd (m w)) = trace w ++ events_of m w /\
  marks (events_of m w) `prefix_of` s /\
  (forall a, fst (m w) = Ok a -> marks (events_of m w) = s).
Proof.
  intros Hm. destruct (Hm w) as (t & Ht & Hp & Hok).
  assert (events_of m w = t) as ->.
  { unfold events_of. by rewrite Ht, drop_app_length. }
  split; [done |]. split; [done |]. intros a Ha. by destruct (Hok a Ha).
Qed.

Lemma prefix_snoc_elem {A} (l pre : list A) x :
  l `prefix_of` pre ++ [x] -> x ∈ l -> x ∉ pre -> l = pre ++ [x].
Proof.
  intros [k Hk] Hin Hnot. destruct k as [|y k _] using rev_ind.
  - by rewrite app_nil_r in Hk.
  - rewrite app_assoc in Hk. apply app_inj_tail in Hk as [-> _].
    exfalso. apply Hnot. apply elem_of_app. by left.
Qed.

(** C5, as stated, fails: a run whose first compilation reports a fatal
    error ends there; the compiler has been invoked once, and neither the
    resolver nor the conversion stage has run. *)
Lemma failed_compile_counterexample :
  let E := Sample.env
             (fun _ => mkChild 0 (txt "! ==> Fatal error occurred, no output PDF file produced!") [])
             [] [] None in
  let w := Sample.world [(Sample.tex, Sample.unpatched)] in
  fst (main E Sample.args w)
  = Raise (ECalledProcess
             (mkCalled 0
                (txt "pdflatex -no-shell-escape -interaction=nonstopmode /home/u/thesis/thesis.tex ")
                None
                (Some (txt "pdflatex compilation error: Fatal error occurred, no output PDF file produced!"))))
  /\
  marks (events_of (main E Sample.args) w)
  = [PatchDone;
     Spawned (txt "pdflatex -no-shell-escape -interaction=nonstopmode /home/u/thesis/thesis.tex ")]
  /\
  count_of
    (Spawned (txt "pdflatex -no-shell-escape -interaction=nonstopmode /home/u/thesis/thesis.tex "))
    (marks (events_of (main E Sample.args) w)) <> 4%nat.
Proof.
  cbv zeta. split; [vm_compute; reflexivity |].
  split; [vm_compute; reflexivity |]. vm_compute. discriminate.
Qed.

(** C5, amended. In every run of the pipeline, the end of the patch
    stage, the commands spawned and the start of the conversion stage
    come in one fixed order: the patch ends, the compiler, the resolver,
    the compiler and the compiler again are spawned, the conversion
    starts.  A run shows an initial part of this sequence or all of it;
    it shows all of it whenever the conversion stage starts, and whenever
    the run returns. *)
Theorem compile_stage_order E self w :
  let ms := marks (events_of (run E self) w) in
  (ms `prefix_of` compile_marks E self \/ compile_marks E self `prefix_of` ms) /\
  (ConvertStart ∈ ms -> compile_marks E self `prefix_of` ms) /\
  (fst (run E self w) = Ok tt -> compile_marks E self `prefix_of` ms).
Proof.
  intros ms.
  destruct (within_events _ _ _ w (run_marks E self)) as (_ & Hp & Hok).
  fold ms in Hp, Hok.
  assert (Hfull : compile_marks E self `prefix_of` pipeline_marks E (setup_self self)).
  { unfold pipeline_marks. rewrite compile_marks_setup. by apply prefix_app_r. }
  assert (Hcmp : ms `prefix_of` compile_marks E self \/ compile_marks E self `prefix_of` ms)
    by exact (prefix_weak_total _ _ _ Hp Hfull).
  split; [exact Hcmp |]. split.
  - intros Hin. destruct Hcmp as [Hpre | Hpre]; [|done].
    assert (ms = compile_marks E self) as ->; [|done].
    apply (prefix_snoc_elem ms
             [PatchDone; Spawned (compile_cmd E self); Spawned (resolve_cmd self);
              Spawned (compile_cmd E self); Spawned (compile_cmd E self)]
             ConvertStart Hpre Hin).
    intros H. repeat (apply elem_of_cons in H as [H | H]; [discriminate |]).
    by apply elem_of_nil in H.
  - intros Hr. by rewrite (Hok tt Hr).
Qed.

Lemma compile_stage_order_witness :
  let E := Sample.env (fun _ => Sample.chatty) [] [] None in
  let w := Sample.world [(Sample.tex, Sample.unpatched)] in
  exists self,
    fst (init E Sample.args w) = Ok self /\
    compile_marks E self `prefix_of` marks (events_of (run E self) (snd (init E Sample.args w))).
Proof.
  cbv zeta. eexists. split; [vm_compute; reflexivity |].
  match goal with
  | |- _ `prefix_of` marks (events_of (run ?E ?self) ?w) =>
      apply (proj2 (proj2 (compile_stage_order E self w)))
  end.
  vm_compute. reflexivity.
Defined.

(** ** Further properties *)

(** [re.search] finds a match exactly in the outputs that have the
    signature. *)
Lemma re_search_fatal_iff s :
  is_Some (re_search_fatal s) <-> has_fatal_signature s.
Proof.
  split; [|apply re_search_fatal_complete].
  intros [m Hm].
  destruct (re_search_fatal_Some s m Hm) as (pre & c & r & post & -> & -> & Hc).
  exists pre, c, (r ++ post). split; [|done].
  by rewrite <- !app_assoc.
Qed.

(** With the validator given as a [str], as the command line gives it,
    [verify_compliance] raises [AttributeError] before anything is
    spawned: a [str] has no [absolute]. *)
Lemma verify_compliance_str E self v document w :
  verapdf_cmd self = Some (VStr v) ->
  verify_compliance E self document w = (Raise EAttributeError, w).
Proof. intros Hv. unfold verify_compliance, get_verapdf_cmd. by rewrite Hv. Qed.

(** In streaming mode a child that exits with a status other than zero
    raises [CalledProcessError], unless errors are ignored. *)
Lemma run_process_verbose_nonzero E cmd cwd w :
  exit_code (spawned E w cmd cwd) <> 0 ->
  fst (run_process E cmd cwd true false w)
  = Raise (ECalledProcess (mkCalled (exit_code (spawned E w cmd cwd)) cmd None None)).
Proof.
  intros Hne. unfold run_process, utils.run, bind, emit, log, emit.
  cbn [files dirs trace clock].
  rewrite popen_eq. cbn [negb andb].
  change (spawned E _ cmd cwd) with (spawned E w cmd cwd).
  destruct (Z.eqb_spec (exit_code (spawned E w cmd cwd)) 0) as [H0 | H0]; [done |].
  reflexivity.
Qed.

(** ** The substitution of the directive, line by line *)

Lemma line_len_app pat r : nl ∉ pat -> line_len (pat ++ r) = (length pat + line_len r)%nat.
Proof.
  induction pat as [|c pat IH]; intros Hn; [done |].
  simpl. destruct (decide (c = nl)) as [->|_]; [set_solver |].
  rewrite IH; [done | set_solver].
Qed.

Lemma line_len_le x : (line_len x <= length x)%nat.
Proof.
  induction x as [|c x IH]; simpl; [lia |].
  destruct (decide (c = nl)); lia.
Qed.

Lemma starts_with_line pat a b :
  nl ∉ pat -> nl ∉ a ->
  starts_with pat (a ++ nl :: b) = starts_with pat a.
Proof.
  revert a. induction pat as [|p pat IH]; intros a Hp Ha; [done |].
  destruct a as [|c a]; simpl.
  - destruct (decide (p = nl)) as [->|_]; [set_solver | done].
  - destruct (decide (p = c)); [|done]. apply IH; set_solver.
Qed.

Lemma last_in_line_line pat a b :
  nl ∉ pat -> nl ∉ a ->
  last_in_line pat (a ++ nl :: b) = last_in_line pat a.
Proof.
  intros Hp. induction a as [|c a IH]; intros Ha.
  - simpl. by destruct (decide (nl = nl)).
  - change ((c :: a) ++ nl :: b) with (c :: (a ++ nl :: b)).
    cbn [last_in_line]. destruct (decide (c = nl)) as [->|_]; [set_solver |].
    rewrite IH by set_solver.
    change (c :: a ++ nl :: b) with ((c :: a) ++ nl :: b).
    by rewrite starts_with_line.
Qed.

Lemma last_in_line_le pat s k :
  nl ∉ pat -> last_in_line pat s = Some k -> (k <= line_len s)%nat.
Proof.
  intros Hp. revert k. induction s as [|c s IH]; intros k; [done |].
  cbn [last_in_line line_len]. destruct (decide (c = nl)); [done |].
  destruct (last_in_line pat s) as [k'|].
  - intros [= <-]. specialize (IH k' eq_refl). lia.
  - destruct (starts_with pat (c :: s)) eqn:Hs; [|done]. intros [= <-].
    apply starts_with_spec in Hs as [r Hr].
    assert (Hll : line_len (c :: s) = S (line_len s)).
    { simpl. by destruct (decide (c = nl)). }
    rewrite <- Hll, Hr, line_len_app by done. lia.
Qed.

Lemma last_in_line_contains pat s k :
  last_in_line pat s = Some k -> contains pat s = true.
Proof.
  revert k. induction s as [|c s IH]; intros k; [done |].
  cbn [last_in_line contains]. destruct (decide (c = nl)); [done |].
  destruct (last_in_line pat s) as [k'|].
  - intros _. rewrite (IH k' eq_refl). apply orb_true_r.
  - destruct (starts_with pat (c :: s)); [done | done].
Qed.

Lemma nl_notin_usepackage : nl ∉ usepackage_lit.
Proof. apply (proj1 (bool_decide_eq_false _)). reflexivity. Qed.

Lemma nl_notin_pdfx : nl ∉ pdfx_lit.
Proof. apply (proj1 (bool_decide_eq_false _)). reflexivity. Qed.

(** A match lies in the line it starts in. *)
Lemma pdfx_match_here_line a b :
  nl ∉ a -> pdfx_match_here (a ++ nl :: b) = pdfx_match_here a.
Proof.
  intros Ha. unfold pdfx_match_here.
  rewrite starts_with_line by (done || apply nl_notin_usepackage).
  destruct (starts_with usepackage_lit a) eqn:Hs; [|done].
  apply starts_with_spec in Hs as [r ->].
  rewrite <- app_assoc, !drop_app_length.
  rewrite last_in_line_line; [done | apply nl_notin_pdfx | set_solver].
Qed.

Lemma pdfx_match_here_le s n :
  pdfx_match_here s = Some n -> (1 <= n <= line_len s)%nat.
Proof.
  unfold pdfx_match_here. destruct (starts_with usepackage_lit s) eqn:Hs; [|done].
  apply starts_with_spec in Hs as [r ->]. rewrite drop_app_length.
  destruct (last_in_line pdfx_lit r) as [k|] eqn:Hk; [|done]. intros [= <-].
  apply last_in_line_le in Hk; [|apply nl_notin_pdfx].
  rewrite line_len_app by apply nl_notin_usepackage.
  change (length usepackage_lit) with 10%nat. lia.
Qed.

Lemma pdfx_match_here_contains s n :
  pdfx_match_here s = Some n -> contains pdfx_lit s = true.
Proof.
  unfold pdfx_match_here. destruct (starts_with usepackage_lit s) eqn:Hs; [|done].
  apply starts_with_spec in Hs as [r ->]. rewrite drop_app_length.
  destruct (last_in_line pdfx_lit r) as [k|] eqn:Hk; [|done]. intros _.
  apply contains_app_r. by apply last_in_line_contains in Hk.
Qed.

(** A text that does not name [{pdfx}] is left as it is. *)
Lemma re_sub_pdfx_id repl s :
  contains pdfx_lit s = false -> re_sub_pdfx repl s = s.
Proof.
  unfold re_sub_pdfx. induction s as [|c s IH]; intros Hc; [done |].
  cbn [re_sub_pdfx_from].
  destruct (pdfx_match_here (c :: s)) as [n|] eqn:Hm.
  - apply pdfx_match_here_contains in Hm. congruence.
  - f_equal. apply IH. cbn [contains] in Hc.
    by apply orb_false_iff in Hc as [_ Hc].
Qed.

(** The substitution works on one line at a time. *)
Lemma re_sub_pdfx_line repl a z skip :
  nl ∉ a -> (skip <= length a)%nat ->
  re_sub_pdfx_from skip repl (a ++ nl :: z)
  = re_sub_pdfx_from skip repl a ++ nl :: re_sub_pdfx_from O repl z.
Proof.
  revert skip. induction a as [|c a IH]; intros skip Ha Hskip.
  - simpl in Hskip. assert (skip = O) as -> by lia.
    change ([] ++ nl :: z) with (nl :: z). cbn [re_sub_pdfx_from].
    change (nl :: z) with ([] ++ nl :: z) at 1.
    rewrite pdfx_match_here_line by set_solver. reflexivity.
  - apply not_elem_of_cons in Ha as [Hc Ha'].
    assert (Hca : nl ∉ c :: a) by (by apply not_elem_of_cons).
    change ((c :: a) ++ nl :: z) with (c :: (a ++ nl :: z)).
    cbn [re_sub_pdfx_from]. destruct skip as [|k].
    + change (c :: a ++ nl :: z) with ((c :: a) ++ nl :: z).
      rewrite pdfx_match_here_line by done.
      destruct (pdfx_match_here (c :: a)) as [n|] eqn:Hm.
      * pose proof (pdfx_match_here_le _ _ Hm) as Hn.
        pose proof (line_len_le (c :: a)) as Hl. cbn [length] in Hl.
        rewrite IH; [by rewrite <- app_assoc | done | lia].
      * rewrite IH; [done | done | lia].
    + rewrite IH; [done | done | simpl in Hskip; lia].
Qed.

Lemma whole_lines_split x :
  whole_lines x -> x <> [] ->
  exists a x2, x = a ++ nl :: x2 /\ (nl ∉ a) /\ whole_lines x2.
Proof.
  intros [-> | Hl] Hne; [done |].
  assert (Hin : nl ∈ x).
  { apply last_Some in Hl as [l' ->]. set_solver. }
  apply list_elem_of_split_l in Hin as (a & x2 & -> & Ha).
  exists a, x2. split; [done |]. split; [done |].
  destruct x2 as [|c x2]; [by left | right].
  by rewrite last_app_cons, last_cons_cons in Hl.
Qed.

Lemma whole_lines_app x y : whole_lines x -> whole_lines y -> whole_lines (x ++ y).
Proof.
  intros Hx [-> | Hy]; [by rewrite app_nil_r |].
  right. rewrite last_app, Hy. done.
Qed.

(** Whole lines in front are substituted by themselves. *)
Lemma re_sub_pdfx_app repl x y :
  whole_lines x ->
  re_sub_pdfx repl (x ++ y) = re_sub_pdfx repl x ++ re_sub_pdfx repl y.
Proof.
  unfold re_sub_pdfx.
  induction x as [x IH] using (induction_ltof1 _ (@length ascii)).
  unfold ltof in IH. intros Hx.
  destruct x as [|c x']; [done |].
  destruct (whole_lines_split _ Hx ltac:(done)) as (a & x2 & Heq & Ha & Hx2).
  rewrite Heq, <- app_assoc. cbn [app].
  rewrite !re_sub_pdfx_line by (done || lia).
  rewrite IH; [by rewrite <- app_assoc | | done].
  rewrite Heq, length_app. simpl. lia.
Qed.

Lemma readlines_from_whole cur s :
  (s = [] -> cur = []) -> whole_lines s ->
  Forall whole_lines (readlines_from cur s).
Proof.
  revert cur. induction s as [|c s IH]; intros cur Hcur Hs.
  - rewrite (Hcur eq_refl). constructor.
  - cbn [readlines_from]. destruct Hs as [Hs | Hs]; [done |].
    destruct (decide (c = nl)) as [->|Hc].
    + constructor.
      * right. rewrite reverse_cons. apply last_snoc.
      * apply IH; [done |]. destruct s as [|c' s]; [by left | right].
        by rewrite last_cons_cons in Hs.
    + apply IH.
      * intros ->. simpl in Hs. congruence.
      * destruct s as [|c' s]; [by left | right].
        by rewrite last_cons_cons in Hs.
Qed.

Lemma readlines_whole s : whole_lines s -> Forall whole_lines (readlines s).
Proof. intros Hs. by apply readlines_from_whole. Qed.

Lemma contains_elem_concat pat (ls : list (list ascii)) l :
  l ∈ ls -> contains pat l = true -> contains pat (concat ls) = true.
Proof.
  intros Hin Hc. apply list_elem_of_split in Hin as (l1 & l2 & ->).
  rewrite concat_app. apply contains_app_r. cbn [concat].
  by apply contains_app_l.
Qed.

Lemma whole_lines_comment_start : whole_lines comment_start.
Proof. by right. Qed.

Lemma whole_lines_comment_end : whole_lines comment_end.
Proof. by right. Qed.

Lemma whole_lines_block (cmds : list (list ascii)) :
  whole_lines (comment_start ++ concat (map (fun cmd => cmd ++ [nl]) cmds) ++ comment_end).
Proof.
  apply whole_lines_app; [apply whole_lines_comment_start |].
  apply whole_lines_app; [|apply whole_lines_comment_end].
  induction cmds as [|c cmds IH]; [by left |].
  cbn [map concat]. apply whole_lines_app; [|done].
  right. apply last_snoc.
Qed.

(** The directive of one accepted configuration gives way to the
    directive of another, and nothing else on its line changes. *)
Lemma re_sub_pdfx_directive v1 l1 v2 l2 :
  valid_config v1 l1 -> valid_config v2 l2 ->
  re_sub_pdfx (drop 1 (pdfx_directive v2 l2)) (pdfx_directive v1 l1 ++ [nl])
  = pdfx_directive v2 l2 ++ [nl].
Proof.
  intros [Hl1 Hv1] [Hl2 Hv2].
  apply bool_decide_eq_true in Hl1, Hv1, Hl2, Hv2.
  repeat (apply elem_of_cons in Hl1 as [-> | Hl1]); [| | |by apply elem_of_nil in Hl1];
  repeat (apply elem_of_cons in Hv1 as [-> | Hv1]); try (by apply elem_of_nil in Hv1);
  repeat (apply elem_of_cons in Hl2 as [-> | Hl2]); try (by apply elem_of_nil in Hl2);
  repeat (apply elem_of_cons in Hv2 as [-> | Hv2]); try (by apply elem_of_nil in Hv2);
  vm_compute; reflexivity.
Qed.

Lemma re_sub_pdfx_after_block self1 self2 v1 l1 v2 l2 :
  preambule_cmds self1 = [pdfx_directive v1 l1] -> valid_config v1 l1 ->
  preambule_cmds self2 = [pdfx_directive v2 l2] -> valid_config v2 l2 ->
  re_sub_pdfx (drop 1 (pdfx_directive v2 l2)) (after_block self1) = after_block self2.
Proof.
  intros H1 Hv1 H2 Hv2. unfold after_block. rewrite H1, H2. cbn [map concat].
  rewrite !app_nil_r.
  rewrite re_sub_pdfx_app by apply whole_lines_comment_start.
  rewrite (re_sub_pdfx_id _ comment_start) by reflexivity.
  rewrite re_sub_pdfx_app by (right; apply last_snoc).
  rewrite re_sub_pdfx_directive by done.
  by rewrite (re_sub_pdfx_id _ comment_end) by reflexivity.
Qed.

Lemma whole_lines_after_block self : whole_lines (after_block self).
Proof. apply whole_lines_block. Qed.

Lemma whole_lines_before_block self : whole_lines (before_block self).
Proof. apply whole_lines_block. Qed.

Lemma whole_lines_patched_line self l : whole_lines l -> whole_lines (patched_line self l).
Proof.
  intros Hl. unfold patched_line. apply whole_lines_app; [done |].
  destruct (contains documentclass_lit l); [apply whole_lines_after_block | by left].
Qed.

Lemma re_sub_pdfx_patched_lines self1 self2 v1 l1 v2 l2 ls :
  preambule_cmds self1 = [pdfx_directive v1 l1] -> valid_config v1 l1 ->
  preambule_cmds self2 = [pdfx_directive v2 l2] -> valid_config v2 l2 ->
  Forall whole_lines ls ->
  Forall (fun l => contains pdfx_lit l = false) ls ->
  re_sub_pdfx (drop 1 (pdfx_directive v2 l2)) (concat (map (patched_line self1) ls))
  = concat (map (patched_line self2) ls).
Proof.
  intros H1 Hv1 H2 Hv2 Hw Hc. induction Hw as [|l ls Hl Hw IH]; [done |].
  apply Forall_cons in Hc as [Hcl Hc]. cbn [map concat].
  rewrite re_sub_pdfx_app by by apply whole_lines_patched_line.
  rewrite IH by done. f_equal.
  unfold patched_line. rewrite re_sub_pdfx_app by done.
  rewrite (re_sub_pdfx_id _ l) by done. f_equal.
  destruct (contains documentclass_lit l); [|done].
  by apply (re_sub_pdfx_after_block self1 self2 v1 l1 v2 l2).
Qed.

(** What an object the constructor returns looks like. *)
Lemma init_Ok E a w self w' :
  init E a w = (Ok self, w') ->
  script_name self = file_name /\
  main_tex_file self = a_main_tex_file a /\
  cmds_before_documentclass self
  = [txt "\pdfobjcompresslevel=0"; txt "\pdfminorversion=7"; txt "\pdfinclusioncopyfonts=1"] /\
  preambule_cmds self
  = [pdfx_directive (a_conformance_level_version a) (a_conformance_level a)] /\
  valid_config (a_conformance_level_version a) (a_conformance_level a).
Proof.
  unfold init, valid_config.
  destruct (py_in (a_conformance_level a) _); [|done].
  destruct (py_in (a_conformance_level_version a) _); [|done].
  cbn [negb]. unfold bind.
  destruct (os_makedirs _ w) as [[[]|?|?] w1]; [|done..].
  destruct (a_verify a).
  - destruct (a_verapdf_path a); [|done]. by intros [= <- <-].
  - by intros [= <- <-].
Qed.

(** The world after the patch of a freshly patched document. *)
Lemma repatch_world E a1 a2 self1 self2 wa wa' wb wb' w orig :
  init E a1 wa = (Ok self1, wa') ->
  init E a2 wb = (Ok self2, wb') ->
  a_main_tex_file a2 = a_main_tex_file a1 ->
  files w !! resolve E (a_main_tex_file a1) = Some orig ->
  contains file_name orig = false ->
  contains pdfx_lit orig = false ->
  whole_lines orig ->
  let w1 := snd (patch_latex E self1 w) in
  patch_latex E self2 w1 =
  (Ok tt,
   with_files (with_event w1 (EvLog Info MAlreadyPatched))
     (<[resolve E (a_main_tex_file a1) :=
          before_block self2 ++ concat (map (patched_line self2) (readlines orig))]>
        (files w1))).
Proof.
  intros Hi1 Hi2 Hmain Hf Hmark Hpdfx Hwhole w1.
  destruct (init_Ok _ _ _ _ _ Hi1) as (Hs1 & Hm1 & Hb1 & Hp1 & Hv1).
  destruct (init_Ok _ _ _ _ _ Hi2) as (Hs2 & Hm2 & Hb2 & Hp2 & Hv2).
  assert (Hw1 : patch_latex E self1 w = (Ok tt, w1) /\
                files w1 !! resolve E (a_main_tex_file a1)
                = Some (before_block self1
                        ++ concat (map (patched_line self1) (readlines orig)))).
  { unfold w1. rewrite (patch_latex_fresh E self1 w orig); rewrite ?Hm1, ?Hs1; try done.
    split; [done |]. cbn [snd with_event with_files files]. apply lookup_insert_eq. }
  destruct Hw1 as [_ Hw1].
  pose proof (patch_latex_again E self2 w1
                (before_block self1 ++ concat (map (patched_line self1) (readlines orig)))
                (pdfx_directive (a_conformance_level_version a2) (a_conformance_level a2))
                []) as Hagain.
  rewrite Hm2, Hmain, Hs2 in Hagain.
  rewrite (Hagain Hw1); [| |exact Hp2].
  2: { apply contains_app_l. unfold before_block. apply contains_app_l. reflexivity. }
  do 3 f_equal.
  rewrite re_sub_pdfx_app by apply whole_lines_before_block.
  rewrite (re_sub_pdfx_id _ (before_block self1))
    by (unfold before_block; rewrite Hb1; reflexivity).
  rewrite (re_sub_pdfx_patched_lines self1 self2 _ _ _ _ _ Hp1 Hv1 Hp2 Hv2).
  - unfold before_block. by rewrite Hb1, Hb2.
  - by apply readlines_whole.
  - apply Forall_forall. intros l Hl.
    destruct (contains pdfx_lit l) eqn:Hc; [|done].
    rewrite <- (readlines_concat orig) in Hpdfx.
    by rewrite (contains_elem_concat _ _ l Hl Hc) in Hpdfx.
Qed.


(** Patching again with the same level and version leaves the freshly
    patched document as it is. *)
Corollary repatch_same_config E a self wa wa' w orig :
  init E a wa = (Ok self, wa') ->
  files w !! resolve E (a_main_tex_file a) = Some orig ->
  contains file_name orig = false ->
  contains pdfx_lit orig = false ->
  whole_lines orig ->
  files (snd (patch_latex E self (snd (patch_latex E self w))))
  = files (snd (patch_latex E self w)).
Proof.
  intros Hi Hf Hmark Hpdfx Hwhole.
  rewrite (repatch_world E a a self self wa wa' wa wa' w orig) by done.
  destruct (init_Ok _ _ _ _ _ Hi) as (Hs & Hm & _).
  cbn [snd with_files files].
  rewrite (patch_latex_fresh E self w orig) by (rewrite ?Hm, ?Hs; done).
  cbn [snd with_event with_files files]. rewrite Hm.
  by rewrite insert_insert_eq.
Qed.


(** ** Whole runs *)

(** The order of the whole pipeline: the patch ends, the compiler, the
    resolver and the compiler twice are spawned, the conversion starts and
    spawns the converter, then the metadata tool, the restructuring tool
    and, when verification is asked for, the validator.  Every run shows an
    initial part of this sequence, and a run that returns shows all of
    it. *)
Theorem pipeline_order E self w :
  let ms := marks (events_of (run E self) w) in
  ms `prefix_of` pipeline_marks E (setup_self self) /\
  (fst (run E self w) = Ok tt -> ms = pipeline_marks E (setup_self self)).
Proof.
  intros ms.
  destruct (within_events _ _ _ w (run_marks E self)) as (_ & Hp & Hok).
  split; [exact Hp | exact (Hok tt)].
Qed.

Lemma pipeline_order_witness :
  let E := Sample.env (fun _ => Sample.chatty) [] [] None in
  let w := Sample.world [(Sample.tex, Sample.unpatched)] in
  exists self,
    fst (init E Sample.args w) = Ok self /\
    marks (events_of (run E self) (snd (init E Sample.args w)))
    = pipeline_marks E (setup_self self).
Proof.
  cbv zeta. eexists. split; [vm_compute; reflexivity |].
  match goal with
  | |- marks (events_of (run ?E ?self) ?w) = _ =>
      apply (proj2 (pipeline_order E self w))
  end.
  vm_compute. reflexivity.
Defined.

(** A level outside [a], [b], [u] or a version outside 1, 2, 3 makes the
    constructor raise [AssertionError] with the world as it was: no file
    and no directory is made or changed, nothing is logged. *)
Theorem init_rejects_invalid E a w :
  py_in (a_conformance_level a) [txt "a"; txt "b"; txt "u"] = false \/
  py_in (a_conformance_level_version a) [1; 2; 3] = false ->
  init E a w = (Raise EAssertionError, w).
Proof. intros [H | H]; [by apply init_rejects_level | by apply init_rejects_version]. Qed.

Lemma init_rejects_invalid_witness :
  init (Sample.env (fun _ => Sample.silent) [] [] None)
    (mkArgs (txt "thesis.tex") (txt "c") 4 (Some (txt "out")) None true false false
            None None None None None None None false)
    (Sample.world [])
  = (Raise EAssertionError, Sample.world []).
Proof. apply init_rejects_invalid. left. reflexivity. Defined.

Lemma repatch_same_config_witness :
  let E := Sample.env (fun _ => Sample.silent) [] [] None in
  let w := Sample.world [(Sample.tex, Sample.unpatched)] in
  exists self,
    fst (init E Sample.args w) = Ok self /\
    files (snd (patch_latex E self (snd (patch_latex E self w))))
    = files (snd (patch_latex E self w)).
Proof.
  cbv zeta. eexists. split; [vm_compute; reflexivity |].
  match goal with
  | |- files (snd (patch_latex ?E ?s (snd (patch_latex ?E ?s ?w)))) = _ =>
      apply (repatch_same_config E Sample.args s w (snd (init E Sample.args w))
               w Sample.unpatched)
  end; try (vm_compute; reflexivity).
  by right.
Defined.

Lemma verify_compliance_str_witness :
  exists self,
    verapdf_cmd self = Some (VStr (txt "verapdf")) /\
    verify_compliance (Sample.env (fun _ => Sample.silent) [] [] None) self None
      (Sample.world [])
    = (Raise EAttributeError, Sample.world []).
Proof.
  exists (mkSelf file_name [] [] (txt "thesis.tex") (txt "b") 1 [] false true true false
            None [] [] (txt ".") (txt "thesis-PDFA-1b.pdf") (txt "thesis.pdf")
            (VStr (txt "pdflatex")) (VStr (txt "bibtex")) (VStr (txt "gs"))
            (VStr (txt "exiftool")) (VStr (txt "qpdf")) (Some (VStr (txt "verapdf")))).
  split; [reflexivity |].
  apply (verify_compliance_str _ _ (txt "verapdf")). reflexivity.
Defined.

Lemma sweep_succeeds_witness :
  let E := Sample.env (fun _ => Sample.silent)
             [txt "thesis.tex"; txt "thesis.aux"; txt "thesis.log"] [] None in
  let w := Sample.world
             [(Sample.tex, Sample.unpatched);
              (txt "/home/u/thesis/thesis.aux", txt "aux");
              (txt "/home/u/thesis/thesis.log", txt "log");
              (txt "/home/u/thesis/thesis.pdf", txt "pdf")] in
  exists self,
    fst (init E Sample.args w) = Ok self /\
    clean_files E self w =
    (Ok tt,
     with_event (with_files w (list_to_map [(Sample.tex, Sample.unpatched)]))
       (EvLog Info MCleaned)).
Proof.
  cbv zeta. eexists. split; [vm_compute; reflexivity |].
  match goal with
  | |- clean_files ?E ?self ?w = _ =>
      rewrite (sweep_succeeds E self w
                 (snd (for_each [txt "thesis.tex"; txt "thesis.aux"; txt "thesis.log"]
                         (remove_if_aux E (txt ".")) w))
                 (snd (os_remove E (txt "/home/u/thesis/thesis.pdf")
                         (snd (for_each [txt "thesis.tex"; txt "thesis.aux"; txt "thesis.log"]
                                 (remove_if_aux E (txt ".")) w)))))
  end; vm_compute; reflexivity.
Defined.



(** ** More on the patch engine *)

Lemma marker_in_before_block self : contains file_name (before_block self) = true.
Proof. unfold before_block. by apply contains_app_l. Qed.

(** The backup survives a second run: once a document has been freshly
    patched it carries the marker, so a later patch, by an object of any
    level and version for the same document, takes the other branch, and
    the backup still holds the original. *)
Theorem backup_survives_second_patch E self1 self2 w orig :
  files w !! resolve E (main_tex_file self1) = Some orig ->
  contains (script_name self1) orig = false ->
  main_tex_file self2 = main_tex_file self1 ->
  script_name self2 = file_name ->
  let p := resolve E (main_tex_file self1) in
  let w1 := snd (patch_latex E self1 w) in
  let w2 := snd (patch_latex E self2 w1) in
  contains file_name (text_at w1 p) = true /\
  files w1 !! (p ++ txt ".backup") = Some orig /\
  files w2 !! (p ++ txt ".backup") = Some orig.
Proof.
  intros Hf Hm Hmain Hs p w1 w2.
  assert (Hw1 : files w1 !! p
                = Some (before_block self1
                        ++ concat (map (patched_line self1) (readlines orig)))).
  { unfold w1. rewrite (patch_latex_fresh E self1 w orig Hf Hm).
    cbn [snd with_event with_files files]. apply lookup_insert_eq. }
  assert (Hb1 : files w1 !! (p ++ txt ".backup") = Some orig).
  { unfold w1. rewrite (patch_latex_fresh E self1 w orig Hf Hm).
    cbn [snd with_event with_files files].
    rewrite lookup_insert_ne by apply backup_ne. apply lookup_insert_eq. }
  assert (Hmark : contains file_name
                    (before_block self1
                     ++ concat (map (patched_line self1) (readlines orig))) = true)
    by apply contains_app_l, marker_in_before_block.
  split; [unfold text_at; by rewrite Hw1 |]. split; [done |].
  unfold w2. fold p in Hw1.
  destruct (preambule_cmds self2) as [|directive rest] eqn:Hp.
  - unfold patch_latex, bind, read_text, log, emit. rewrite Hmain. fold p.
    rewrite Hw1, Hs, Hmark. cbn [files dirs trace clock]. rewrite Hw1, Hp. exact Hb1.
  - pose proof (patch_latex_again E self2 w1
                  (before_block self1
                   ++ concat (map (patched_line self1) (readlines orig)))
                  directive rest) as Hagain.
    rewrite Hmain, Hs in Hagain. fold p in Hagain.
    rewrite (Hagain Hw1 Hmark Hp).
    cbn [snd with_event with_files files].
    rewrite lookup_insert_ne by apply backup_ne. exact Hb1.
Qed.

Lemma backup_survives_second_patch_witness :
  let E := Sample.env (fun _ => Sample.silent) [] [] None in
  let w := Sample.world [(Sample.tex, Sample.unpatched)] in
  exists self1 self2,
    fst (init E Sample.args w) = Ok self1 /\
    fst (init E Sample.args_2u w) = Ok self2 /\
    files (snd (patch_latex E self2 (snd (patch_latex E self1 w))))
      !! (Sample.tex ++ txt ".backup") = Some Sample.unpatched.
Proof.
  cbv zeta. do 2 eexists.
  split; [vm_compute; reflexivity |]. split; [vm_compute; reflexivity |].
  match goal with
  | |- files (snd (patch_latex ?E ?s2 (snd (patch_latex ?E ?s1 ?w)))) !! _ = _ =>
      apply (proj2 (proj2 (backup_survives_second_patch E s1 s2 w Sample.unpatched
               ltac:(reflexivity) ltac:(reflexivity) ltac:(reflexivity) ltac:(reflexivity))))
  end.
Defined.





(** ** More on the process runner *)

(** [run_process] in streaming mode, as a function of the child's exit
    status. *)
Lemma run_process_verbose E cmd cwd ignore w :
  let w' := with_event (with_event w EvRule) (EvLog Info (MRunning cmd)) in
  let c := spawned E w cmd cwd in
  run_process E cmd cwd true ignore w =
  (if negb ignore && negb (exit_code c =? 0)
   then Raise (ECalledProcess (mkCalled (exit_code c) cmd None None))
   else Ok (PResult (mkCompleted cmd (exit_code c) None None)),
   after_spawn E w' cmd cwd).
Proof.
  unfold run_process, utils.run, bind, log, emit. cbn [files dirs trace clock].
  rewrite popen_eq.
  change (spawned E _ cmd cwd) with (spawned E w cmd cwd).
  unfold with_event. cbn [files dirs trace clock].
  by destruct (negb ignore && negb (exit_code (spawned E w cmd cwd) =? 0)).
Qed.

(** In streaming mode the exit status alone decides: a status other than
    zero raises [CalledProcessError] without any captured text, unless
    errors are ignored; a zero status returns the completed process even
    when the child printed the fatal-error signature, which this mode
    never reads. *)
Theorem streaming_mode_reads_exit_code_only E cmd cwd ignore w :
  let c := spawned E w cmd cwd in
  (exit_code c <> 0 -> ignore = false ->
   fst (run_process E cmd cwd true ignore w)
   = Raise (ECalledProcess (mkCalled (exit_code c) cmd None None)))
  /\
  (exit_code c = 0 \/ ignore = true ->
   fst (run_process E cmd cwd true ignore w)
   = Ok (PResult (mkCompleted cmd (exit_code c) None None))).
Proof.
  intros c. rewrite run_process_verbose. cbv zeta. fold c. cbn [fst]. split.
  - intros Hne ->. cbn [negb andb].
    by destruct (Z.eqb_spec (exit_code c) 0).
  - intros [H0 | ->].
    + rewrite H0. by rewrite andb_false_r.
    + reflexivity.
Qed.

Lemma streaming_mode_reads_exit_code_only_witness :
  fst (run_process
         (Sample.env (fun _ => mkChild 0 (txt "! ==> Fatal error occurred") []) [] [] None)
         (txt "pdflatex x.tex") None true false (Sample.world []))
  = Ok (PResult (mkCompleted (txt "pdflatex x.tex") 0 None None))
  /\
  fst (run_process
         (Sample.env (fun _ => mkChild 1 (txt "fine") []) [] [] None)
         (txt "pdflatex x.tex") None true false (Sample.world []))
  = Raise (ECalledProcess (mkCalled 1 (txt "pdflatex x.tex") None None)).
Proof.
  split.
  - apply (streaming_mode_reads_exit_code_only
             (Sample.env (fun _ => mkChild 0 (txt "! ==> Fatal error occurred") []) [] [] None)
             (txt "pdflatex x.tex") None false (Sample.world [])).
    left. reflexivity.
  - apply (streaming_mode_reads_exit_code_only
             (Sample.env (fun _ => mkChild 1 (txt "fine") []) [] [] None)
             (txt "pdflatex x.tex") None false (Sample.world [])); [discriminate | reflexivity].
Defined.

(** The text of the error for a child that a signal ended cannot be made:
    in streaming mode such a child (a negative exit status) makes
    [run_process] raise a [CalledProcessError] whose [__str__] raises
    [AttributeError]. *)
Theorem signal_error_has_no_text E cmd cwd w show :
  exit_code (spawned E w cmd cwd) < 0 ->
  exists e,
    fst (run_process E cmd cwd true false w) = Raise (ECalledProcess e) /\
    CalledProcessError_str show e = Raise EAttributeError.
Proof.
  intros Hneg. eexists. split.
  - apply streaming_mode_reads_exit_code_only; [lia | reflexivity].
  - unfold CalledProcessError_str. cbn [e_returncode].
    destruct (Z.eqb_spec (exit_code (spawned E w cmd cwd)) 0); [lia |].
    destruct (Z.ltb_spec (exit_code (spawned E w cmd cwd)) 0); [done | lia].
Qed.

Lemma signal_error_has_no_text_witness :
  exists e,
    fst (run_process (Sample.env (fun _ => mkChild (-9) [] []) [] [] None)
           (txt "gs in.pdf") None true false (Sample.world []))
    = Raise (ECalledProcess e) /\
    CalledProcessError_str (fun _ => txt "None") e = Raise EAttributeError.
Proof.
  apply (signal_error_has_no_text (Sample.env (fun _ => mkChild (-9) [] []) [] [] None)
           (txt "gs in.pdf") None (Sample.world [])).
  reflexivity.
Defined.



(** ** More on the compile and conversion stages *)

(** The commands of an object the constructor returns. *)
Lemma init_Ok_cmds E a w self w' :
  init E a w = (Ok self, w') ->
  verbose self = a_verbose a /\
  pdflatex_cmd self = match given (a_pdflatex_path a) with
                      | Some p => VPath p
                      | None => VStr (txt "pdflatex")
                      end /\
  bibtex_cmd self = match given (a_bibtex_path a) with
                    | Some p => VPath p
                    | None => VStr (txt "bibtex")
                    end /\
  verify self = a_verify a /\
  verapdf_cmd self = (if a_verify a then a_verapdf_path a else None).
Proof.
  unfold init.
  destruct (py_in (a_conformance_level a) _); [|done].
  destruct (py_in (a_conformance_level_version a) _); [|done].
  cbn [negb]. unfold bind.
  destruct (os_makedirs _ w) as [[[]|?|?] w1]; [|done..].
  destruct (a_verify a).
  - destruct (a_verapdf_path a); [|done]. by intros [= <- <-].
  - by intros [= <- <-].
Qed.

Lemma generate_pdf_path E self w :
  (exists p, pdflatex_cmd self = VPath p) \/ (exists p, bibtex_cmd self = VPath p) ->
  generate_pdf E self w = (Raise ETypeError, w).
Proof.
  intros [[p Hp] | [p Hp]]; unfold generate_pdf, pdflatex_line, bibtex_line, join_vals.
  - by rewrite Hp.
  - rewrite Hp. by destruct (pdflatex_cmd self).
Qed.

(** With a compiler path or a resolver path among the arguments, the
    object keeps it as a [Path], and the compile stage raises [TypeError]
    when it joins the command line: nothing is spawned and the world is
    as it was. *)
Theorem compile_stage_rejects_given_paths E a w0 w0' self w :
  init E a w0 = (Ok self, w0') ->
  given (a_pdflatex_path a) <> None \/ given (a_bibtex_path a) <> None ->
  generate_pdf E self w = (Raise ETypeError, w).
Proof.
  intros Hi Hgiven.
  destruct (init_Ok_cmds _ _ _ _ _ Hi) as (_ & Hp & Hb & _).
  apply generate_pdf_path. destruct Hgiven as [H | H].
  - left. destruct (given (a_pdflatex_path a)) as [p|]; [eauto | done].
  - right. destruct (given (a_bibtex_path a)) as [p|]; [eauto | done].
Qed.

Lemma compile_stage_rejects_given_paths_witness :
  let E := Sample.env (fun _ => Sample.chatty) [] [] None in
  let w := Sample.world [(Sample.tex, Sample.unpatched);
                         (txt "/usr/bin/pdflatex", txt "ELF")] in
  let a := mkArgs (txt "thesis.tex") (txt "b") 1 None None true false false
                  (Some (txt "/usr/bin/pdflatex")) None None (Some (txt "gs"))
                  None None None false in
  exists self,
    fst (init E a w) = Ok self /\
    generate_pdf E self w = (Raise ETypeError, w).
Proof.
  cbv zeta. eexists. split; [vm_compute; reflexivity |].
  match goal with
  | |- generate_pdf ?E ?s ?w = _ =>
      apply (compile_stage_rejects_given_paths E
               (mkArgs (txt "thesis.tex") (txt "b") 1 None None true false false
                  (Some (txt "/usr/bin/pdflatex")) None None (Some (txt "gs"))
                  None None None false)
               w w s w)
  end.
  - vm_compute. reflexivity.
  - left. discriminate.
Defined.




(** ** More on the verification *)

(** [verify_compliance] with the validator given as a [Path]: the
    validator is spawned, and the report is whatever [run_process]
    returns. *)
Lemma verify_compliance_path E self v w :
  verapdf_cmd self = Some (VPath v) ->
  verify_compliance E self None w =
  (report <- run_process E
               (verapdf_line E self (resolve E v) (output_document self))
               (Some (txt ".")) false false ;;
   parse_report E report) w.
Proof.
  intros Hv. unfold verify_compliance, get_verapdf_cmd, py_absolute. by rewrite Hv.
Qed.



(** A validator that prints nothing: with an empty standard output,
    [run_process] hands back the completed process instead of a text (or
    raises, when the standard error is not empty), and the XML parser,
    given something that is no text, raises [TypeError]. *)
Theorem verify_compliance_silent_validator E self v w :
  verapdf_cmd self = Some (VPath v) ->
  let cmd := verapdf_line E self (resolve E v) (output_document self) in
  let c := spawned E w cmd (Some (txt ".")) in
  out c = [] ->
  (err c = [] -> fst (verify_compliance E self None w) = Raise ETypeError) /\
  (err c <> [] ->
   fst (verify_compliance E self None w)
   = Raise (ECalledProcess (mkCalled (exit_code c) cmd None (Some (err c))))).
Proof.
  intros Hv cmd c Hout.
  rewrite (verify_compliance_path E self v w Hv). fold cmd.
  unfold bind. rewrite run_process_captured. cbv zeta. fold c. rewrite Hout.
  split.
  - intros ->. reflexivity.
  - intros Hne. rewrite (bool_decide_true (err c <> [])) by done. reflexivity.
Qed.

Lemma verify_compliance_silent_validator_witness :
  let E := Sample.env (fun _ => Sample.silent) [] [] None in
  let self := mkSelf file_name [] [] (txt "thesis.tex") (txt "b") 1 [] false true true false
                None [] [] (txt ".") (txt "thesis-PDFA-1b.pdf") (txt "thesis.pdf")
                (VStr (txt "pdflatex")) (VStr (txt "bibtex")) (VStr (txt "gs"))
                (VStr (txt "exiftool")) (VStr (txt "qpdf"))
                (Some (VPath (txt "/opt/verapdf/verapdf"))) in
  fst (verify_compliance E self None (Sample.world [])) = Raise ETypeError.
Proof.
  cbv zeta.
  match goal with
  | |- fst (verify_compliance ?E ?s None ?w) = _ =>
      apply (proj1 (verify_compliance_silent_validator E s (txt "/opt/verapdf/verapdf") w
                      ltac:(reflexivity) ltac:(reflexivity)))
  end.
  reflexivity.
Defined.

(** ** More on the cleanup sweep *)

Lemma os_remove_cases E p w :
  (exists e, os_remove E p w = (Raise e, w)) \/
  os_remove E p w = (Ok tt, with_files w (delete p (files w))).
Proof.
  unfold os_remove. destruct (files w !! p).
  - destruct (unlink_denied E p); [left; eauto | by right].
  - left. destruct (bool_decide (p ∈ dirs w)); eauto.
Qed.

Lemma only_deletes_refl allowed w : only_deletes allowed w w.
Proof. split; [done | by left]. Qed.

Lemma only_deletes_trans allowed w1 w2 w3 :
  only_deletes allowed w1 w2 -> only_deletes allowed w2 w3 -> only_deletes allowed w1 w3.
Proof.
  intros [Hd1 Hf1] [Hd2 Hf2]. split; [congruence |].
  intros q. destruct (Hf2 q) as [H2 | [H2 Hin]]; [|by right].
  destruct (Hf1 q) as [H1 | [H1 Hin]]; [left; congruence | right].
  split; [congruence | done].
Qed.

Lemma only_deletes_mono allowed allowed' w w' :
  allowed ⊆ allowed' -> only_deletes allowed w w' -> only_deletes allowed' w w'.
Proof.
  intros Hsub [Hd Hf]. split; [done |].
  intros q. destruct (Hf q) as [H | [H Hin]]; [by left | right]. split; [done |].
  by apply Hsub.
Qed.

Lemma only_deletes_event allowed w e : only_deletes allowed w (with_event w e).
Proof. split; [done | by left]. Qed.

Lemma os_remove_only_deletes E p w :
  only_deletes [p] w (snd (os_remove E p w)).
Proof.
  destruct (os_remove_cases E p w) as [[e ->] | ->]; [apply only_deletes_refl |].
  split; [done |]. intros q. cbn [snd with_files files].
  destruct (decide (q = p)) as [-> | Hne].
  - right. rewrite lookup_delete_eq. split; [done | set_solver].
  - left. by rewrite lookup_delete_ne.
Qed.

Lemma sweep_loop_only_deletes E directory names w :
  only_deletes
    (map (fun name => resolve E (path_join directory name))
       (filter (fun name => py_in (path_suffix (path_join directory name)) aux_files_ext = true)
               names))
    w (snd (for_each names (remove_if_aux E directory) w)).
Proof.
  revert w. induction names as [|name names IH]; intros w; [apply only_deletes_refl |].
  cbn [for_each]. rewrite filter_cons. unfold bind.
  unfold remove_if_aux at 1.
  destruct (decide (py_in (path_suffix (path_join directory name)) aux_files_ext = true))
    as [Haux | Haux].
  - rewrite Haux. cbn [when map].
    pose proof (os_remove_only_deletes E (resolve E (path_join directory name)) w) as Hrm.
    destruct (os_remove E (resolve E (path_join directory name)) w) as [[[]|e|c] w1];
      cbn [snd] in *.
    + eapply only_deletes_trans.
      * eapply only_deletes_mono; [|exact Hrm]. set_solver.
      * eapply only_deletes_mono; [|apply IH]. set_solver.
    + eapply only_deletes_mono; [|exact Hrm]. set_solver.
    + eapply only_deletes_mono; [|exact Hrm]. set_solver.
  - destruct (py_in (path_suffix (path_join directory name)) aux_files_ext); [done |].
    cbn [when]. unfold ret. apply IH.
Qed.

(** The sweep only deletes, and only what it is meant for: after
    [clean_files] the directories are as they were, and every path holds
    what it held, unless it is an entry of the listing with one of the
    intermediate suffixes or the compiled artifact, which may be gone.
    No file is made or changed. *)
Theorem sweep_only_deletes E self w q :
  let w' := snd (clean_files E self w) in
  dirs w' = dirs w /\
  (files w' !! q = files w !! q \/
   files w' !! q = None /\
   (q ∈ swept_paths E self w \/ q = compiled_document E self)).
Proof.
  intros w'.
  assert (H : only_deletes (swept_paths E self w ++ [compiled_document E self]) w w').
  { unfold w', clean_files, try_catch, clean_body, swept_paths, compiled_document.
    set (directory := path_parent (main_tex_file self)).
    unfold bind at 1. unfold get_files. unfold bind at 1.
    pose proof (sweep_loop_only_deletes E directory
                  (listing E (resolve E directory) (files w)) w) as Hloop.
    destruct (for_each _ _ w) as [[[]|e|c] w1]; cbn [snd] in *.
    - unfold bind at 1.
      pose proof (os_remove_only_deletes E
                    (resolve E (path_join directory (compiled_pdf_filename self))) w1) as Hrm.
      destruct (os_remove E _ w1) as [[[]|e|c] w2]; cbn [snd] in *.
      + eapply only_deletes_trans; [eapply only_deletes_mono; [|exact Hloop]; set_solver |].
        eapply only_deletes_trans; [eapply only_deletes_mono; [|exact Hrm]; set_solver |].
        apply only_deletes_event.
      + eapply only_deletes_trans; [eapply only_deletes_mono; [|exact Hloop]; set_solver |].
        eapply only_deletes_trans; [eapply only_deletes_mono; [|exact Hrm]; set_solver |].
        apply only_deletes_event.
      + eapply only_deletes_trans; [eapply only_deletes_mono; [|exact Hloop]; set_solver |].
        eapply only_deletes_mono; [|exact Hrm]. set_solver.
    - eapply only_deletes_trans; [eapply only_deletes_mono; [|exact Hloop]; set_solver |].
      apply only_deletes_event.
    - eapply only_deletes_mono; [|exact Hloop]. set_solver. }
  destruct H as [Hd Hf]. split; [done |].
  destruct (Hf q) as [Hq | [Hq Hin]]; [by left | right]. split; [done |].
  apply elem_of_app in Hin as [Hin | Hin]; [by left | right]. set_solver.
Qed.

Lemma for_each_remove_no_exit E directory names w c :
  fst (for_each names (remove_if_aux E directory) w) <> Exit c.
Proof.
  revert w. induction names as [|name names IH]; intros w; [done |].
  cbn [for_each]. unfold bind, remove_if_aux at 1.
  destruct (py_in _ aux_files_ext); cbn [when].
  - destruct (os_remove_cases E (resolve E (path_join directory name)) w)
      as [[e ->] | ->]; [done | apply IH].
  - unfold ret. apply IH.
Qed.

(** [clean_files] returns normally from every world: whatever goes wrong
    in the sweep is logged, never raised, and the program is not left. *)
Theorem sweep_never_fails E self w : fst (clean_files E self w) = Ok tt.
Proof.
  unfold clean_files, try_catch, clean_body.
  set (directory := path_parent (main_tex_file self)).
  unfold bind at 1. unfold get_files. unfold bind at 1.
  pose proof (for_each_remove_no_exit E directory
                (listing E (resolve E directory) (files w)) w) as Hne.
  destruct (for_each _ _ w) as [[[]|e|c] w1]; cbn [fst] in *.
  - unfold bind at 1.
    destruct (os_remove_cases E
                (resolve E (path_join directory (compiled_pdf_filename self))) w1)
      as [[e ->] | ->]; reflexivity.
  - reflexivity.
  - by destruct (Hne c).
Qed.

(** ** The checks before the run *)

Lemma keeps_ret {A} (a : A) : keeps_store (ret a).
Proof. by intros w. Qed.

Lemma keeps_exit {A} c : keeps_store (@sys_exit A c).
Proof. by intros w. Qed.

Lemma keeps_raise {A} e : keeps_store (@raise A e).
Proof. by intros w. Qed.

Lemma keeps_emit e : keeps_store (emit e).
Proof. by intros w. Qed.

Lemma keeps_is_file p : keeps_store (is_file p).
Proof. by intros w. Qed.

Lemma keeps_bind {A B} (m : M A) (k : A -> M B) :
  keeps_store m -> (forall a, keeps_store (k a)) -> keeps_store (bind m k).
Proof.
  intros Hm Hk w. unfold bind. destruct (Hm w) as [Hf Hd].
  destruct (m w) as [[a|e|c] w1]; cbn [snd] in *; [|done..].
  destruct (Hk a w1) as [Hf2 Hd2]. split; congruence.
Qed.

Lemma keeps_with_status {A} st (m : M A) :
  keeps_store m -> keeps_store (with_status st m).
Proof.
  intros Hm w. unfold with_status.
  destruct (Hm (snd (emit (EvStatusStart st) w))) as [Hf Hd]. cbn [emit snd] in *.
  destruct (m _) as [r w2]. cbn [snd files dirs] in *. done.
Qed.

Lemma check_executable_spec E v name w :
  check_executable E v name w =
  if exe_found E w v then (Ok tt, w)
  else (Exit 1, with_event w (EvLog Error (exe_missing v name))).
Proof.
  unfold check_executable, exe_found. destruct v as [s|p].
  - by destruct (which E s).
  - unfold bind, is_file. by destruct (bool_decide _).
Qed.

Lemma check_seq {B} E v name (k : M B) w :
  (check_executable E v name ;;; k) w =
  if exe_found E w v then k w
  else (Exit 1, with_event w (EvLog Error (exe_missing v name))).
Proof.
  unfold bind. rewrite check_executable_spec. by destruct (exe_found E w v).
Qed.

Lemma keeps_check_executable E v name : keeps_store (check_executable E v name).
Proof. intros w. rewrite check_executable_spec. by destruct (exe_found E w v). Qed.

Lemma keeps_check_tex_file E self : keeps_store (check_tex_file E self).
Proof.
  unfold check_tex_file. apply keeps_bind; [apply keeps_is_file |].
  intros b. destruct b; cbn [negb].
  - apply keeps_emit.
  - apply keeps_bind; [apply keeps_emit | intros _; apply keeps_exit].
Qed.

Lemma keeps_check_executables E self : keeps_store (check_executables E self).
Proof.
  unfold check_executables, get_verapdf_cmd.
  repeat (apply keeps_bind; [try apply keeps_check_executable | intros _]).
  - destruct (verify self); [|apply keeps_ret].
    destruct (verapdf_cmd self).
    + apply keeps_bind; [apply keeps_ret | intros v; apply keeps_check_executable].
    + apply keeps_bind; [apply keeps_raise | intros v; apply keeps_check_executable].
  - apply keeps_emit.
Qed.

Lemma keeps_setup E self : keeps_store (setup E self).
Proof.
  unfold setup.
  apply keeps_bind; [apply keeps_emit | intros _].
  apply keeps_bind; [apply keeps_with_status, keeps_check_tex_file | intros _].
  apply keeps_bind; [apply keeps_with_status, keeps_check_executables | intros _].
  apply keeps_bind; [apply keeps_emit | intros _]. apply keeps_ret.
Qed.

Lemma exe_found_files E w w' v : files w' = files w -> exe_found E w' v = exe_found E w v.
Proof. intros H. unfold exe_found. by rewrite H. Qed.

(** [check_executables] when every executable it goes through is found
    and, for a verification, the validator is set. *)
Lemma check_executables_found E self w :
  forallb (exe_found E w) (checked_executables self) = true ->
  (verify self = true -> verapdf_cmd self <> None) ->
  check_executables E self w = (Ok tt, with_event w (EvLog Info MRequirementsOk)).
Proof.
  intros Hall Hvera. unfold checked_executables in Hall.
  cbn [app forallb] in Hall.
  repeat (apply andb_true_iff in Hall as [? Hall]).
  unfold check_executables. rewrite !check_seq.
  repeat match goal with H : exe_found _ _ _ = true |- _ => rewrite H; clear H end.
  unfold bind. destruct (verify self).
  - unfold get_verapdf_cmd. destruct (verapdf_cmd self) as [v|]; [|by destruct Hvera].
    cbn [from_option forallb] in Hall. apply andb_true_iff in Hall as [Hv _].
    unfold ret. rewrite check_executable_spec, Hv. reflexivity.
  - reflexivity.
Qed.

(** [check_executables] when one of the executables is not found. *)
Lemma check_executables_missing E self w v :
  v ∈ checked_executables self -> exe_found E w v = false ->
  fst (check_executables E self w) = Exit 1.
Proof.
  intros Hin Hv. unfold checked_executables in Hin.
  unfold check_executables. rewrite check_seq.
  destruct (exe_found E w (pdflatex_cmd self)) eqn:H1; [|done]. rewrite check_seq.
  destruct (exe_found E w (bibtex_cmd self)) eqn:H2; [|done]. rewrite check_seq.
  destruct (exe_found E w (gs_cmd self)) eqn:H3; [|done]. rewrite check_seq.
  destruct (exe_found E w (exiftool_cmd self)) eqn:H4; [|done]. rewrite check_seq.
  destruct (exe_found E w (qpdf_cmd self)) eqn:H5; [|done].
  apply elem_of_app in Hin as [Hin | Hin].
  { repeat (apply elem_of_cons in Hin as [-> | Hin]; [congruence |]).
    by apply elem_of_nil in Hin. }
  unfold bind. destruct (verify self); [|by apply elem_of_nil in Hin].
  unfold get_verapdf_cmd. destruct (verapdf_cmd self) as [v'|]; cbn [from_option] in Hin.
  - apply list_elem_of_singleton in Hin as ->.
    unfold ret. rewrite check_executable_spec, Hv. reflexivity.
  - by apply elem_of_nil in Hin.
Qed.

(** The checks of [setup] decide the run before anything is touched:
    [setup] leaves the files and the directories as they are in every
    case; it leaves the program with status 1 when the document is not a
    file, and when the document is a file but one of the executables is
    not found; and when the document and every executable are found it
    returns the object with an output file name that ends in [.pdf]. *)
Theorem setup_outcome E self w :
  (files (snd (setup E self w)) = files w /\ dirs (snd (setup E self w)) = dirs w) /\
  (files w !! resolve E (main_tex_file self) = None ->
   fst (setup E self w) = Exit 1) /\
  (forall v, is_Some (files w !! resolve E (main_tex_file self)) ->
             v ∈ checked_executables self -> exe_found E w v = false ->
             fst (setup E self w) = Exit 1) /\
  (is_Some (files w !! resolve E (main_tex_file self)) ->
   forallb (exe_found E w) (checked_executables self) = true ->
   (verify self = true -> verapdf_cmd self <> None) ->
   fst (setup E self w) = Ok (setup_self self) /\
   ends_with (txt ".pdf") (output_filename (setup_self self)) = true).
Proof.
  split; [apply keeps_setup |].
  unfold setup, bind, with_status, emit, check_tex_file, bind, is_file.
  cbn [files dirs trace clock snd fst].
  split; [|split].
  - intros Hn. rewrite Hn. rewrite bool_decide_false by (by intros [? ?]). reflexivity.
  - intros v Hsome Hin Hv. rewrite bool_decide_true by done. cbn [negb log emit].
    unfold log, emit. cbn [files dirs trace clock snd fst].
    match goal with
    | |- context [check_executables E self ?w1] =>
        pose proof (check_executables_missing E self w1 v Hin Hv) as Hmiss;
        destruct (check_executables E self w1) as [r w2]
    end.
    cbn [fst] in Hmiss. subst r. reflexivity.
  - intros Hsome Hall Hvera. rewrite bool_decide_true by done.
    unfold log, emit. cbn [files dirs trace clock snd fst negb].
    match goal with
    | |- context [check_executables E self ?w1] =>
        rewrite (check_executables_found E self w1)
    end; [| exact Hall | done].
    cbn [snd fst with_event files dirs trace clock]. split.
    + unfold setup_self. by destruct (negb _).
    + unfold setup_self. destruct (ends_with (txt ".pdf") (output_filename self)) eqn:He;
        cbn [negb]; [done |].
      cbn [set_output_filename output_filename]. unfold ends_with.
      rewrite reverse_app. apply starts_with_app.
Qed.

Lemma setup_outcome_witness :
  let E := Sample.env (fun _ => Sample.silent) [] [] None in
  let w := Sample.world [(Sample.tex, Sample.unpatched)] in
  exists self,
    fst (init E Sample.args w) = Ok self /\
    fst (setup E self w) = Ok (setup_self self) /\
    ends_with (txt ".pdf") (output_filename (setup_self self)) = true.
Proof.
  cbv zeta. eexists. split; [vm_compute; reflexivity |].
  match goal with
  | |- fst (setup ?E ?s ?w) = _ /\ _ =>
      apply (proj2 (proj2 (proj2 (setup_outcome E s w))))
  end; [by eexists | reflexivity | discriminate].
Defined.

(** A run that fails its checks touches nothing: when the document is
    not a file, or one of the executables is not found, [run] leaves the
    program with status 1, the files and the directories are as they
    were, and nothing has been spawned: the document is not patched and no
    backup is made. *)
Theorem failed_checks_leave_project E self w :
  files w !! resolve E (main_tex_file self) = None \/
  (exists v, v ∈ checked_executables self /\ exe_found E w v = false) ->
  fst (run E self w) = Exit 1 /\
  files (snd (run E self w)) = files w /\
  dirs (snd (run E self w)) = dirs w /\
  marks (events_of (run E self) w) = [].
Proof.
  intros Hfail. set (w1 := snd (emit EvBanner w)).
  assert (Hexit : fst (setup E self w1) = Exit 1).
  { destruct (setup_outcome E self w1) as (_ & Hdoc & Hexe & _).
    destruct (files w !! resolve E (main_tex_file self)) as [c|] eqn:Hf.
    - destruct Hfail as [? | (v & Hin & Hv)]; [done |].
      apply (Hexe v); [by exists c | done | exact Hv].
    - by apply Hdoc. }
  assert (Hrun : run E self w = (Exit 1, snd (setup E self w1))).
  { unfold run. unfold bind at 1. change (emit EvBanner w) with (Ok tt, w1).
    cbv beta iota. unfold bind at 1.
    destruct (setup E self w1) as [r w2]. cbn [fst snd] in *. by subst r. }
  destruct (setup_outcome E self w1) as ((Hfiles & Hdirs) & _).
  destruct (within_setup E self w1) as (t & Ht & Hp & _).
  unfold events_of. rewrite Hrun. cbn [fst snd].
  split; [done |]. split; [exact Hfiles |]. split; [exact Hdirs |].
  rewrite Ht. change (trace w1) with (trace w ++ [EvBanner]).
  rewrite <- app_assoc, drop_app_length, marks_app.
  apply prefix_nil_inv in Hp. by rewrite Hp.
Qed.

Lemma failed_checks_leave_project_witness :
  let E := Sample.env (fun _ => Sample.silent) [] [] None in
  let w := Sample.world [] in
  exists self,
    fst (init E Sample.args w) = Ok self /\
    fst (run E self w) = Exit 1 /\
    files (snd (run E self w)) = files w.
Proof.
  cbv zeta. eexists. split; [vm_compute; reflexivity |].
  match goal with
  | |- fst (run ?E ?s ?w) = _ /\ _ =>
      destruct (failed_checks_leave_project E s w ltac:(left; reflexivity))
        as (H1 & H2 & _)
  end.
  split; [exact H1 | exact H2].
Defined.

(** ** The metadata file *)



(** ** More on the constructor *)

Lemma os_makedirs_effect p w :
  files (snd (os_makedirs p w)) = files w /\
  dirs w ⊆ dirs (snd (os_makedirs p w)) /\
  (fst (os_makedirs p w) = Ok tt -> p ∈ dirs (snd (os_makedirs p w))).
Proof.
  unfold os_makedirs.
  destruct (list_find _ _) as [[i d]|]; cbn [fst snd files dirs].
  - split; [done |]. split; [done | discriminate].
  - split; [done |]. split; [set_solver |]. intros _.
    apply elem_of_union. left. apply elem_of_list_to_set, elem_of_app. right.
    by apply list_elem_of_singleton.
Qed.

(** The constructor touches nothing but the output directory: in every
    case the files are as they were and no directory is lost; when it
    returns an object, the output directory, the given one or else the
    directory of the document, exists, and the output file is the given
    name or else the document's stem followed by [-PDFA-], the version,
    the level and [.pdf]. *)
Theorem init_effect E a w :
  let w' := snd (init E a w) in
  files w' = files w /\
  dirs w ⊆ dirs w' /\
  forall self, fst (init E a w) = Ok self ->
    output_dir self = from_option id (path_parent (a_main_tex_file a)) (given (a_output_dir a)) /\
    path_absolute (getcwd E) (output_dir self) ∈ dirs w' /\
    output_filename self
    = from_option id
        (path_stem (a_main_tex_file a) ++ txt "-PDFA-"
         ++ str_of_Z (a_conformance_level_version a) ++ a_conformance_level a ++ txt ".pdf")
        (given (a_output_filename a)).
Proof.
  intros w'. unfold w'. clear w'.
  remember (init E a w) as r eqn:Hr. unfold init in Hr.
  destruct (py_in (a_conformance_level a) _); cbn [negb] in Hr;
    [|subst r; split; [done | split; [done | discriminate]]].
  destruct (py_in (a_conformance_level_version a) _); cbn [negb] in Hr;
    [|subst r; split; [done | split; [done | discriminate]]].
  unfold bind at 1 in Hr.
  set (odir := match given (a_output_dir a) with
               | Some d => d
               | None => path_parent (a_main_tex_file a)
               end) in Hr.
  assert (Hod : odir = from_option id (path_parent (a_main_tex_file a)) (given (a_output_dir a)))
    by (unfold odir; by destruct (given (a_output_dir a))).
  destruct (os_makedirs_effect (path_absolute (getcwd E) odir) w) as (Hf & Hd & Hin).
  destruct (os_makedirs _ w) as [[[]|e|c] w1]; cbn [fst snd] in *;
    [|subst r; split; [done | split; [done | discriminate]]..].
  specialize (Hin eq_refl).
  destruct (a_verify a); [destruct (a_verapdf_path a) as [v|]|];
    unfold ret, bind, log, emit, sys_exit in Hr; subst r; cbn [fst snd files dirs];
    (split; [done |]); (split; [done |]); try discriminate;
    intros self [= <-]; cbn [output_dir output_filename];
    (split; [done |]); (split; [done |]); by destruct (given (a_output_filename a)).
Qed.

Lemma init_effect_witness :
  let E := Sample.env (fun _ => Sample.silent) [] [] None in
  let w := Sample.world [(Sample.tex, Sample.unpatched)] in
  let a := mkArgs (txt "thesis.tex") (txt "b") 1 (Some (txt "out")) None true false false
                  None None None (Some (txt "gs")) None None None false in
  exists self,
    fst (init E a w) = Ok self /\
    output_filename self = txt "thesis-PDFA-1b.pdf" /\
    (txt "/home/u/thesis/out" ∈ dirs (snd (init E a w))).
Proof.
  cbv zeta. eexists. split; [vm_compute; reflexivity |].
  match goal with
  | |- output_filename ?s = _ /\ _ ∈ dirs (snd (init ?E ?a ?w)) =>
      destruct (proj2 (proj2 (init_effect E a w)) s ltac:(vm_compute; reflexivity))
        as (_ & Hdir & Hname)
  end.
  split; [exact Hname | exact Hdir].
Defined.
